(** * js/public/Utility.h: allocation facade, OOM injection, typed helpers,
      hash scrambling and pointer poisoning.

    A shallow embedding of the inline functions and macros of
    [js/public/Utility.h].  Machine integers are [Z] with the wrap-around of
    the C++ type written out; the process state the header reads and writes
    (the two OOM globals, byte-addressed memory) is threaded explicitly
    through a small state monad, together with a chronological log of the
    calls made to external collaborators (the allocator backend,
    constructors, destructors, [memset]). *)

From Stdlib Require Import ZArith List Bool Lia.
Import ListNotations.
Local Open Scope Z_scope.

(** ** Machine integers *)

(** Conversion to an unsigned integer type of [bits] bits. *)
Definition wrap (bits z : Z) : Z := Z.land z (Z.ones bits).

Definition uint8_t (z : Z) : Z := wrap 8 z.
Definition uint32_t (z : Z) : Z := wrap 32 z.

(** The two data models the header is compiled for. *)
Inductive Arch : Type := ILP32 | LP64.

(** [mozilla::tl::BitSize<size_t>::value]. *)
Definition BitSize_size_t (a : Arch) : Z :=
  match a with ILP32 => 32 | LP64 => 64 end.

Definition size_t (a : Arch) (z : Z) : Z := wrap (BitSize_size_t a) z.
Definition uintptr_t (a : Arch) (z : Z) : Z := wrap (BitSize_size_t a) z.

Definition nullptr : Z := 0.

(** ** Build configuration

    The preprocessor symbols the header tests.  [JS_USE_CUSTOM_ALLOCATOR] is
    taken as undefined: the header then defines the facade itself. *)
Record Build : Type := {
  arch : Arch;
  DEBUG : bool;
  JS_OOM_BREAKPOINT : bool;
  JSGC_ROOT_ANALYSIS : bool;
  JS_DEBUG : bool
}.

(** ** Patterns used to overwrite unused memory (lines 42-49) *)

Definition JS_FRESH_NURSERY_PATTERN : Z := 0x2F.
Definition JS_SWEPT_NURSERY_PATTERN : Z := 0x2B.
Definition JS_ALLOCATED_NURSERY_PATTERN : Z := 0x2D.
Definition JS_FRESH_TENURED_PATTERN : Z := 0x4F.
Definition JS_SWEPT_TENURED_PATTERN : Z := 0x4B.
Definition JS_ALLOCATED_TENURED_PATTERN : Z := 0x4D.
Definition JS_SWEPT_CODE_PATTERN : Z := 0x3b.
Definition JS_SWEPT_FRAME_PATTERN : Z := 0x5b.

(** ** Process state *)

(** Byte-addressed memory: the byte stored at each address. *)
Definition Memory : Type := Z -> Z.

Definition store_byte (addr c : Z) (m : Memory) : Memory :=
  fun x => if x =? addr then uint8_t c else m x.

(** Calls that leave the header, in the order they happen. *)
Inductive Event : Type :=
| EvMalloc (bytes : Z)
| EvCalloc (nmemb size : Z)
| EvRealloc (p bytes : Z)
| EvFree (p : Z)
| EvBreakpoint
| EvConstruct (p : Z) (parms : list Z)
| EvDestruct (p : Z)
| EvMemset (p c n : Z)
| EvReleaseMethod (p : Z).

Record World : Type := {
  OOM_maxAllocations : Z;   (* uint32_t, set in builtin/TestingFunctions.cpp *)
  OOM_counter : Z;          (* uint32_t *)
  mem : Memory;
  trace : list Event
}.

Definition set_counter (c : Z) (w : World) : World :=
  {| OOM_maxAllocations := OOM_maxAllocations w; OOM_counter := c;
     mem := mem w; trace := trace w |}.

Definition set_mem (m : Memory) (w : World) : World :=
  {| OOM_maxAllocations := OOM_maxAllocations w; OOM_counter := OOM_counter w;
     mem := m; trace := trace w |}.

Definition log (e : Event) (w : World) : World :=
  {| OOM_maxAllocations := OOM_maxAllocations w; OOM_counter := OOM_counter w;
     mem := mem w; trace := trace w ++ [e] |}.

(** The state monad the embedded functions run in. *)
Definition M (A : Type) : Type := World -> A * World.

Definition ret {A : Type} (a : A) : M A := fun w => (a, w).

Definition bind {A B : Type} (c : M A) (k : A -> M B) : M B :=
  fun w => let (a, w') := c w in k a w'.

Declare Scope m_scope.
Delimit Scope m_scope with M.
Notation "x <- c ;; k" := (bind c (fun x => k))
  (at level 61, c at next level, right associativity) : m_scope.
Notation "c ;; k" := (bind c (fun _ => k))
  (at level 61, right associativity) : m_scope.
Local Open Scope m_scope.

(** ** The allocator backend

    [malloc], [calloc], [realloc] and [free] of <stdlib.h>: unknown
    functions of the requested sizes and of memory (which also holds the
    allocator's own bookkeeping).  A null result is the failure signal. *)
Class Backend : Type := {
  malloc : Z -> Memory -> Z * Memory;
  calloc : Z -> Z -> Memory -> Z * Memory;
  realloc : Z -> Z -> Memory -> Z * Memory;
  free : Z -> Memory -> Memory
}.

(** Whether an event is a call to the backend. *)
Definition is_backend_call (e : Event) : bool :=
  match e with
  | EvMalloc _ | EvCalloc _ _ | EvRealloc _ _ | EvFree _ => true
  | _ => false
  end.

Definition backend_calls (t : list Event) : list Event :=
  filter is_backend_call t.

Section Facade.

Context (b : Build) {B : Backend}.

Definition call_malloc (bytes : Z) : M Z :=
  fun w => let (p, m) := malloc bytes (mem w) in
           (p, log (EvMalloc bytes) (set_mem m w)).

Definition call_calloc (nmemb size : Z) : M Z :=
  fun w => let (p, m) := calloc nmemb size (mem w) in
           (p, log (EvCalloc nmemb size) (set_mem m w)).

Definition call_realloc (p bytes : Z) : M Z :=
  fun w => let (q, m) := realloc p bytes (mem w) in
           (q, log (EvRealloc p bytes) (set_mem m w)).

Definition call_free (p : Z) : M unit :=
  fun w => (tt, log (EvFree p) (set_mem (free p (mem w)) w)).

(** ** OOM fault injection (lines 73-100) *)

(** [#if defined(DEBUG) || defined(JS_OOM_BREAKPOINT)] *)
Definition oom_injection : bool := DEBUG b || JS_OOM_BREAKPOINT b.

(** [JS_OOM_CALL_BP_FUNC()]: [js_failedAllocBreakpoint()] under
    [JS_OOM_BREAKPOINT], nothing otherwise. *)
Definition JS_OOM_CALL_BP_FUNC : M unit :=
  fun w => if JS_OOM_BREAKPOINT b then (tt, log EvBreakpoint w) else (tt, w).

(** [JS_OOM_POSSIBLY_FAIL()].  The result is [true] when the macro executes
    its [return nullptr], leaving the enclosing function. *)
Definition JS_OOM_POSSIBLY_FAIL : M bool :=
  if oom_injection then
    fun w =>
      let w1 := set_counter (uint32_t (OOM_counter w + 1)) w in
      if OOM_counter w1 >? OOM_maxAllocations w1
      then (_ <- JS_OOM_CALL_BP_FUNC ;; ret true) w1
      else (false, w1)
  else ret false.

(** ** The facade (lines 102-129) *)

Definition js_malloc (bytes : Z) : M Z :=
  failed <- JS_OOM_POSSIBLY_FAIL ;;
  if failed : bool then ret nullptr else call_malloc bytes.

(** [js_calloc(size_t bytes)] *)
Definition js_calloc (bytes : Z) : M Z :=
  failed <- JS_OOM_POSSIBLY_FAIL ;;
  if failed : bool then ret nullptr else call_calloc bytes 1.

(** [js_calloc(size_t nmemb, size_t size)] *)
Definition js_calloc_nmemb (nmemb size : Z) : M Z :=
  failed <- JS_OOM_POSSIBLY_FAIL ;;
  if failed : bool then ret nullptr else call_calloc nmemb size.

Definition js_realloc (p bytes : Z) : M Z :=
  failed <- JS_OOM_POSSIBLY_FAIL ;;
  if failed : bool then ret nullptr else call_realloc p bytes.

Definition js_free (p : Z) : M unit := call_free p.

End Facade.

(** ** Typed construction helpers (lines 176-354) *)

(** What the helpers need of a C++ class [T]: [sizeof(T)], its constructor
    run on raw memory with the forwarded parameters, its destructor, and
    (for [ScopedReleasePtr]) its [release()] method. *)
Record Class : Type := {
  sizeof : Z;
  constructor : list Z -> Z -> Memory -> Memory;
  destructor : Z -> Memory -> Memory;
  method_release : Z -> Memory -> Memory
}.

(** [new(memory) t parms] *)
Definition placement_new (t : Class) (memory : Z) (parms : list Z) : M Z :=
  fun w => (memory,
            log (EvConstruct memory parms)
                (set_mem (constructor t parms memory (mem w)) w)).

(** [p->~T()] *)
Definition call_destructor (t : Class) (p : Z) : M unit :=
  fun w => (tt, log (EvDestruct p) (set_mem (destructor t p (mem w)) w)).

(** [ptr->release()] *)
Definition call_method_release (t : Class) (p : Z) : M unit :=
  fun w => (tt, log (EvReleaseMethod p) (set_mem (method_release t p (mem w)) w)).

(** [memset(p, c, n)] of <string.h>: [n] bytes from [p] on become
    [(unsigned char)c]. *)
Fixpoint memset_bytes (p c : Z) (n : nat) (m : Memory) : Memory :=
  match n with
  | O => m
  | S k => memset_bytes (p + 1) c k (store_byte p c m)
  end.

Definition call_memset (p c n : Z) : M unit :=
  fun w => (tt, log (EvMemset p c n)
                    (set_mem (memset_bytes p c (Z.to_nat n) (mem w)) w)).

(** [JS_NEW_BODY(allocator, t, parms)] *)
Definition JS_NEW_BODY (allocator : Z -> M Z) (t : Class) (parms : list Z) : M Z :=
  memory <- allocator (sizeof t) ;;
  if memory =? nullptr then ret nullptr else placement_new t memory parms.

(** ** POD bulk helpers (lines 356-386) *)

(** [mozilla::tl::FloorLog2<I>]: [1 + FloorLog2<I / 2>], [FloorLog2<1> = 0]. *)
Fixpoint FloorLog2 (i : positive) : Z :=
  match i with
  | xH => 0
  | xO j | xI j => 1 + FloorLog2 j
  end.

(** [mozilla::tl::CeilingLog2<I>]: [FloorLog2<2 * I - 1>], the template
    argument [2 * I - 1] being computed in [size_t]. *)
Definition CeilingLog2 (a : Arch) (i : Z) : Z :=
  match size_t a (2 * i - 1) with
  | Zpos p => FloorLog2 p
  | _ => 0
  end.

(** [mozilla::tl::NBitMask<N>]: [(size_t(1) << N) - 1], and [size_t(-1)] at
    [N = BitSize<size_t>]. *)
Definition NBitMask (a : Arch) (n : Z) : Z :=
  if n =? BitSize_size_t a then size_t a (-1)
  else size_t a (Z.shiftl 1 n - 1).

(** Modelled from the spec: [mozilla::tl::MulOverflowMask<N>] comes from
    mozilla/TemplateLib.h, which is not among the sources.  The spec asks of
    the bulk helpers that a count whose product with [sizeof(T)] would
    overflow the size type is refused; the mask that does it in that header
    has the top [CeilingLog2<N>] bits of [size_t] set, and is [0] for
    [N = 1]. *)
Definition MulOverflowMask (a : Arch) (n : Z) : Z :=
  if n =? 1 then 0
  else size_t a (Z.lnot (NBitMask a (BitSize_size_t a - CeilingLog2 a n))).

(** The largest value of [size_t]. *)
Definition SIZE_MAX (a : Arch) : Z := 2 ^ BitSize_size_t a - 1.

(** The largest element count whose byte size fits [size_t]. *)
Definition max_count (a : Arch) (sizeofT : Z) : Z := SIZE_MAX a / sizeofT.

Section Helpers.

Context (b : Build) {B : Backend}.

(** [JS_DECLARE_NEW_METHODS(js_new, js_malloc, static MOZ_ALWAYS_INLINE)]:
    one overload per number of parameters, from none to twelve, each with
    the body [JS_NEW_BODY(js_malloc, T, (p1, ..., pn))]. *)
Definition js_new (t : Class) (parms : list Z) : M Z :=
  JS_NEW_BODY (js_malloc b) t parms.

Definition js_delete (t : Class) (p : Z) : M unit :=
  if p =? nullptr then ret tt
  else (call_destructor t p ;; js_free p).

Definition js_delete_poison (t : Class) (p : Z) : M unit :=
  if p =? nullptr then ret tt
  else (call_destructor t p ;; call_memset p 0x3B (sizeof t) ;; js_free p).

(** [js_pod_malloc<T>()] and [js_pod_calloc<T>()] *)
Definition js_pod_malloc_one (sizeofT : Z) : M Z := js_malloc b sizeofT.
Definition js_pod_calloc_one (sizeofT : Z) : M Z := js_calloc b sizeofT.

(** [js_pod_malloc<T>(size_t numElems)] *)
Definition js_pod_malloc (sizeofT numElems : Z) : M Z :=
  if negb (Z.land numElems (MulOverflowMask (arch b) sizeofT) =? 0)
  then ret nullptr
  else js_malloc b (size_t (arch b) (numElems * sizeofT)).

(** [js_pod_calloc<T>(size_t numElems)] *)
Definition js_pod_calloc (sizeofT numElems : Z) : M Z :=
  if negb (Z.land numElems (MulOverflowMask (arch b) sizeofT) =? 0)
  then ret nullptr
  else js_calloc b (size_t (arch b) (numElems * sizeofT)).

(** ** Scoped pointers (lines 388-413) *)

(** The traits a scoped wrapper is instantiated with: the empty value and
    the release operation. *)
Record ScopedTraits : Type := {
  empty : Z;
  release : Z -> M unit
}.

Definition ScopedFreePtrTraits : ScopedTraits :=
  {| empty := nullptr; release := fun ptr => js_free ptr |}.

Definition ScopedDeletePtrTraits (t : Class) : ScopedTraits :=
  {| empty := nullptr; release := fun ptr => js_delete t ptr |}.

Definition ScopedReleasePtrTraits (t : Class) : ScopedTraits :=
  {| empty := nullptr;
     release := fun ptr =>
       if ptr =? nullptr then ret tt else call_method_release t ptr |}.

(** The three instantiations made with [SCOPED_TEMPLATE]. *)
Inductive ScopedKind : Type :=
| ScopedJSFreePtr
| ScopedJSDeletePtr (t : Class)
| ScopedReleasePtr (t : Class).

Definition traits_of (k : ScopedKind) : ScopedTraits :=
  match k with
  | ScopedJSFreePtr => ScopedFreePtrTraits
  | ScopedJSDeletePtr t => ScopedDeletePtrTraits t
  | ScopedReleasePtr t => ScopedReleasePtrTraits t
  end.

(** Modelled from the spec: the wrapper class itself ([SCOPED_TEMPLATE],
    [mozilla::Scoped] of mozilla/Scoped.h) is not among the sources.  After
    the spec: a handle holds at most one value; it is built empty or owning;
    a move leaves the source empty and gives the value to the destination;
    release-and-forget returns the value and clears the handle; destroying
    a handle that is not empty invokes the release policy on its value. *)
Record Scoped : Type := { value : Z }.

Definition Scoped_empty (tr : ScopedTraits) : Scoped := {| value := empty tr |}.

Definition Scoped_owning (v : Z) : Scoped := {| value := v |}.

(** The pair is (destination, source after the move). *)
Definition Scoped_move (tr : ScopedTraits) (src : Scoped) : Scoped * Scoped :=
  ({| value := value src |}, {| value := empty tr |}).

(** The pair is (value handed to the caller, handle afterwards). *)
Definition Scoped_forget (tr : ScopedTraits) (s : Scoped) : Z * Scoped :=
  (value s, {| value := empty tr |}).

Definition Scoped_destroy (tr : ScopedTraits) (s : Scoped) : M unit :=
  if value s =? empty tr then ret tt else release tr (value s).

(** ** Sequences of gated allocations *)

Inductive GatedOp : Type :=
| OpMalloc (bytes : Z)
| OpCalloc (bytes : Z)
| OpCallocNmemb (nmemb size : Z)
| OpRealloc (p bytes : Z).

(** The facade call of an operation. *)
Definition run_op (op : GatedOp) : M Z :=
  match op with
  | OpMalloc bytes => js_malloc b bytes
  | OpCalloc bytes => js_calloc b bytes
  | OpCallocNmemb nmemb size => js_calloc_nmemb b nmemb size
  | OpRealloc p bytes => js_realloc b p bytes
  end.

(** The backend call an operation makes when the injector lets it through. *)
Definition backend_op (op : GatedOp) : M Z :=
  match op with
  | OpMalloc bytes => call_malloc bytes
  | OpCalloc bytes => call_calloc bytes 1
  | OpCallocNmemb nmemb size => call_calloc nmemb size
  | OpRealloc p bytes => call_realloc p bytes
  end.

(** Successive calls, one after the other; the results in call order. *)
Fixpoint run_ops (ops : list GatedOp) : M (list Z) :=
  match ops with
  | [] => ret []
  | op :: rest => r <- run_op op ;; rs <- run_ops rest ;; ret (r :: rs)
  end.

End Helpers.

(** ** Hash scrambling (lines 415-462) *)

Definition HashNumberSizeBits : Z := 32.

Definition goldenRatio : Z := 0x9E3779B9.

(** [h * goldenRatio] on [uint32_t] operands. *)
Definition ScrambleHashCode (h : Z) : Z := uint32_t (uint32_t h * goldenRatio).

(** ** Poisoned pointer words (lines 464-496) *)

Section Poison.

(** [JS_FREE_PATTERN] is used by the header and defined elsewhere: a
    parameter here. *)
Context (b : Build) (JS_FREE_PATTERN : Z).

(** [#if defined(JSGC_ROOT_ANALYSIS) && defined(JS_DEBUG)] *)
Definition root_analysis : bool := JSGC_ROOT_ANALYSIS b && JS_DEBUG b.

(** [PoisonPtr(void* v)]: [v] is the address of the pointer word. *)
Definition PoisonPtr (v : Z) : M unit :=
  if root_analysis then
    fun w => let ptr := v + 3 in
             (tt, set_mem (store_byte ptr JS_FREE_PATTERN (mem w)) w)
  else ret tt.

(** [IsPoisonedPtr(T* v)]: [v] is the pointer word itself. *)
Definition IsPoisonedPtr (v : Z) : bool :=
  if root_analysis then
    let mask := uint32_t (Z.land (uintptr_t (arch b) v) 0xff000000) in
    mask =? uint32_t (Z.shiftl JS_FREE_PATTERN 24)
  else false.

End Poison.

(** Byte [i] of a word, byte 0 being the least significant. *)
Definition byte_of (i w : Z) : Z := Z.land (Z.shiftr w (8 * i)) 0xff.

(** Bytes in a pointer word. *)
Definition pointer_bytes (a : Arch) : Z := BitSize_size_t a / 8.

(** The pointer word stored at [addr], least significant byte first: the
    byte order on which the store of [PoisonPtr] at offset 3 and the mask
    [0xff000000] of [IsPoisonedPtr] name the same byte. *)
Fixpoint load_bytes (n : nat) (addr : Z) (m : Memory) : Z :=
  match n with
  | O => 0
  | S k => uint8_t (m addr) + 256 * load_bytes k (addr + 1) m
  end.

Definition load_pointer (a : Arch) (addr : Z) (m : Memory) : Z :=
  load_bytes (Z.to_nat (pointer_bytes a)) addr m.

(** ** Concrete builds, backend and classes to run the definitions on *)

Definition debug_build (a : Arch) : Build :=
  {| arch := a; DEBUG := true; JS_OOM_BREAKPOINT := false;
     JSGC_ROOT_ANALYSIS := false; JS_DEBUG := true |}.

Definition release_build (a : Arch) : Build :=
  {| arch := a; DEBUG := false; JS_OOM_BREAKPOINT := false;
     JSGC_ROOT_ANALYSIS := false; JS_DEBUG := false |}.

Definition analysis_build (a : Arch) : Build :=
  {| arch := a; DEBUG := true; JS_OOM_BREAKPOINT := false;
     JSGC_ROOT_ANALYSIS := true; JS_DEBUG := true |}.

(** A build with only [JS_OOM_BREAKPOINT] defined. *)
Definition breakpoint_build (a : Arch) : Build :=
  {| arch := a; DEBUG := false; JS_OOM_BREAKPOINT := true;
     JSGC_ROOT_ANALYSIS := false; JS_DEBUG := false |}.

Definition zero_memory : Memory := fun _ => 0.

(** A backend that hands out the block at address 4096 on every request
    and leaves memory as it is. *)
Definition block_backend : Backend :=
  {| malloc := fun _ m => (4096, m);
     calloc := fun _ _ m => (4096, m);
     realloc := fun _ _ m => (4096, m);
     free := fun _ m => m |}.

(** A backend that keeps a one-byte header just below the block at
    address 4096: the allocating calls set it, [free] clears the header of
    the block it is given. *)
Definition header_backend : Backend :=
  {| malloc := fun _ m => (4096, store_byte 4095 1 m);
     calloc := fun _ _ m => (4096, store_byte 4095 1 m);
     realloc := fun _ _ m => (4096, store_byte 4095 1 m);
     free := fun p m => store_byte (p - 1) 0 m |}.

(** The process state with the counter at zero and the threshold at [n]. *)
Definition start_world (n : Z) : World :=
  {| OOM_maxAllocations := n; OOM_counter := 0; mem := zero_memory; trace := [] |}.

(** A class of [n] bytes whose constructor stores its first parameter in
    the first byte and whose destructor clears that byte. *)
Definition byte_class (n : Z) : Class :=
  {| sizeof := n;
     constructor := fun parms p m => store_byte p (hd 0 parms) m;
     destructor := fun p m => store_byte p 0 m;
     method_release := fun p m => store_byte p 0 m |}.

(** A class of [n] bytes whose destructor records that it ran in the byte
    at address 8, outside the object. *)
Definition flag_class (n : Z) : Class :=
  {| sizeof := n;
     constructor := fun parms p m => store_byte p (hd 0 parms) m;
     destructor := fun p m => store_byte 8 1 m;
     method_release := fun p m => m |}.

(** A state with a live object at 4096: its first byte is 7 and the
    header of its block is set. *)
Definition live_world : World :=
  {| OOM_maxAllocations := 0; OOM_counter := 0;
     mem := store_byte 4095 1 (store_byte 4096 7 zero_memory); trace := [] |}.

(** The allocation-lifecycle states that have a sentinel byte in the
    header: the eight pattern macros and the byte [js_delete_poison]
    writes. *)
Inductive Lifecycle : Type :=
| FreshNursery | SweptNursery | AllocatedNursery
| FreshTenured | SweptTenured | AllocatedTenured
| SweptCode | SweptFrame
| PoisonedOnDelete.

(** The byte [js_delete_poison] passes to [memset] on a non-null pointer,
    read off the log of the call. *)
Definition delete_poison_byte : Z :=
  match trace (snd (js_delete_poison (B := block_backend) (byte_class 1) 4096
                      (start_world 0))) with
  | [_; EvMemset _ c _; _] => c
  | _ => -1
  end.

Definition sentinel (s : Lifecycle) : Z :=
  match s with
  | FreshNursery => JS_FRESH_NURSERY_PATTERN
  | SweptNursery => JS_SWEPT_NURSERY_PATTERN
  | AllocatedNursery => JS_ALLOCATED_NURSERY_PATTERN
  | FreshTenured => JS_FRESH_TENURED_PATTERN
  | SweptTenured => JS_SWEPT_TENURED_PATTERN
  | AllocatedTenured => JS_ALLOCATED_TENURED_PATTERN
  | SweptCode => JS_SWEPT_CODE_PATTERN
  | SweptFrame => JS_SWEPT_FRAME_PATTERN
  | PoisonedOnDelete => delete_poison_byte
  end.

(** The pattern macros, in the order of the header. *)
Definition pattern_macros : list Z :=
  [JS_FRESH_NURSERY_PATTERN; JS_SWEPT_NURSERY_PATTERN;
   JS_ALLOCATED_NURSERY_PATTERN; JS_FRESH_TENURED_PATTERN;
   JS_SWEPT_TENURED_PATTERN; JS_ALLOCATED_TENURED_PATTERN;
   JS_SWEPT_CODE_PATTERN; JS_SWEPT_FRAME_PATTERN].

(** The calls one invocation of a wrapper's release policy on a non-null
    value [v] makes. *)
Definition release_events (k : ScopedKind) (v : Z) : list Event :=
  match k with
  | ScopedJSFreePtr => [EvFree v]
  | ScopedJSDeletePtr _ => [EvDestruct v; EvFree v]
  | ScopedReleasePtr _ => [EvReleaseMethod v]
  end.

(** The byte below the most significant one of a pointer word. *)
Definition second_most_significant_byte (a : Arch) (v : Z) : Z :=
  byte_of (pointer_bytes a - 2) v.

(** A pointer word whose second-most-significant byte is the low byte of
    [pat] and whose byte 3 is the next byte value. *)
Definition decoy_pointer (a : Arch) (pat : Z) : Z :=
  Z.lor (Z.shiftl (uint8_t pat) (8 * (pointer_bytes a - 2)))
        (Z.shiftl (uint8_t (uint8_t pat + 1)) 24).

(** * Properties *)

(** ** Machine integers *)

Lemma wrap_mod bits z : 0 <= bits -> wrap bits z = z mod 2 ^ bits.
Proof. intros Hb. unfold wrap. now rewrite Z.land_ones. Qed.

Lemma uint32_t_mod z : uint32_t z = z mod 2 ^ 32.
Proof. unfold uint32_t. now rewrite wrap_mod. Qed.

Lemma uint8_t_mod z : uint8_t z = z mod 2 ^ 8.
Proof. unfold uint8_t. now rewrite wrap_mod. Qed.

Lemma size_t_mod a z : size_t a z = z mod 2 ^ BitSize_size_t a.
Proof. unfold size_t. rewrite wrap_mod; [reflexivity | destruct a; simpl; lia]. Qed.

Lemma gtb_true x y : y < x -> (x >? y) = true.
Proof. intros H. now apply Z.gtb_lt. Qed.

Lemma gtb_false x y : x <= y -> (x >? y) = false.
Proof. intros H. rewrite Z.gtb_ltb. now apply Z.ltb_ge. Qed.

Lemma size_t_small a z : 0 <= z < 2 ^ BitSize_size_t a -> size_t a z = z.
Proof. intros H. rewrite size_t_mod. now apply Z.mod_small. Qed.

(** ** The fault injector and the facade *)

Section FacadeProperties.

Context (b : Build) {B : Backend}.

(** What the macro does when it is compiled in. *)
Lemma JS_OOM_POSSIBLY_FAIL_enabled w :
  oom_injection b = true ->
  JS_OOM_POSSIBLY_FAIL b w =
    if uint32_t (OOM_counter w + 1) >? OOM_maxAllocations w
    then (true, if JS_OOM_BREAKPOINT b
                then log EvBreakpoint (set_counter (uint32_t (OOM_counter w + 1)) w)
                else set_counter (uint32_t (OOM_counter w + 1)) w)
    else (false, set_counter (uint32_t (OOM_counter w + 1)) w).
Proof.
  intros He. unfold JS_OOM_POSSIBLY_FAIL. rewrite He. cbn [set_counter OOM_counter OOM_maxAllocations].
  destruct (_ >? _); [|reflexivity].
  unfold bind, JS_OOM_CALL_BP_FUNC, ret. now destruct (JS_OOM_BREAKPOINT b).
Qed.

Lemma JS_OOM_POSSIBLY_FAIL_disabled w :
  oom_injection b = false -> JS_OOM_POSSIBLY_FAIL b w = (false, w).
Proof. intros He. unfold JS_OOM_POSSIBLY_FAIL. now rewrite He. Qed.

(** Every gated operation is the injector check followed, when it passes,
    by the backend call. *)
Lemma run_op_gate op w :
  run_op b op w =
    if fst (JS_OOM_POSSIBLY_FAIL b w)
    then (nullptr, snd (JS_OOM_POSSIBLY_FAIL b w))
    else backend_op op (snd (JS_OOM_POSSIBLY_FAIL b w)).
Proof.
  destruct op; cbn [run_op backend_op];
    unfold js_malloc, js_calloc, js_calloc_nmemb, js_realloc, bind;
    destruct (JS_OOM_POSSIBLY_FAIL b w) as [[|] w1]; reflexivity.
Qed.

Lemma backend_op_counters op w :
  OOM_counter (snd (backend_op op w)) = OOM_counter w /\
  OOM_maxAllocations (snd (backend_op op w)) = OOM_maxAllocations w.
Proof.
  destruct op; cbn [backend_op]; unfold call_malloc, call_calloc, call_realloc.
  - destruct (malloc bytes (mem w)); split; reflexivity.
  - destruct (calloc bytes 1 (mem w)); split; reflexivity.
  - destruct (calloc nmemb size (mem w)); split; reflexivity.
  - destruct (realloc p bytes (mem w)); split; reflexivity.
Qed.

Lemma backend_op_trace op w :
  exists e, is_backend_call e = true /\
            trace (snd (backend_op op w)) = trace w ++ [e].
Proof.
  destruct op; cbn [backend_op]; unfold call_malloc, call_calloc, call_realloc.
  - destruct (malloc bytes (mem w)); eexists; split; [|reflexivity]; reflexivity.
  - destruct (calloc bytes 1 (mem w)); eexists; split; [|reflexivity]; reflexivity.
  - destruct (calloc nmemb size (mem w)); eexists; split; [|reflexivity]; reflexivity.
  - destruct (realloc p bytes (mem w)); eexists; split; [|reflexivity]; reflexivity.
Qed.

Lemma backend_calls_app t1 t2 :
  backend_calls (t1 ++ t2) = backend_calls t1 ++ backend_calls t2.
Proof. apply filter_app. Qed.

(** The check leaves memory alone and adds no backend call. *)
Lemma JS_OOM_POSSIBLY_FAIL_frame w :
  mem (snd (JS_OOM_POSSIBLY_FAIL b w)) = mem w /\
  backend_calls (trace (snd (JS_OOM_POSSIBLY_FAIL b w))) = backend_calls (trace w) /\
  OOM_maxAllocations (snd (JS_OOM_POSSIBLY_FAIL b w)) = OOM_maxAllocations w.
Proof.
  destruct (oom_injection b) eqn:He.
  - rewrite JS_OOM_POSSIBLY_FAIL_enabled by assumption.
    destruct (_ >? _); [destruct (JS_OOM_BREAKPOINT b)|]; cbn;
      rewrite ?backend_calls_app, ?app_nil_r; auto.
  - rewrite JS_OOM_POSSIBLY_FAIL_disabled by assumption. auto.
Qed.

(** One gated operation advances the counter by one, modulo 2^32. *)
Lemma run_op_counters op w :
  oom_injection b = true ->
  OOM_counter (snd (run_op b op w)) = uint32_t (OOM_counter w + 1) /\
  OOM_maxAllocations (snd (run_op b op w)) = OOM_maxAllocations w.
Proof.
  intros He. rewrite run_op_gate, JS_OOM_POSSIBLY_FAIL_enabled by assumption.
  destruct (_ >? _); cbn [fst snd].
  - destruct (JS_OOM_BREAKPOINT b); split; reflexivity.
  - destruct (backend_op_counters op (set_counter (uint32_t (OOM_counter w + 1)) w))
      as [-> ->]. split; reflexivity.
Qed.

Lemma run_ops_cons op rest w :
  snd (run_ops b (op :: rest) w) = snd (run_ops b rest (snd (run_op b op w))).
Proof.
  cbn [run_ops]. unfold bind. destruct (run_op b op w) as [r w1]. cbn [snd].
  destruct (run_ops b rest w1) as [rs w2]. reflexivity.
Qed.

(** After [n] gated operations the counter has advanced by [n], modulo
    2^32; the threshold stays. *)
Lemma run_ops_counters ops : forall w,
  oom_injection b = true ->
  0 <= OOM_counter w < 2 ^ 32 ->
  OOM_counter (snd (run_ops b ops w)) =
    (OOM_counter w + Z.of_nat (length ops)) mod 2 ^ 32 /\
  OOM_maxAllocations (snd (run_ops b ops w)) = OOM_maxAllocations w.
Proof.
  induction ops as [|op rest IH]; intros w He Hc.
  - cbn. rewrite Z.add_0_r, Z.mod_small by assumption. auto.
  - rewrite run_ops_cons.
    destruct (run_op_counters op w He) as [Hc1 Hm1].
    assert (Hr : 0 <= OOM_counter (snd (run_op b op w)) < 2 ^ 32).
    { rewrite Hc1, uint32_t_mod. apply Z.mod_pos_bound. lia. }
    destruct (IH _ He Hr) as [-> ->]. split; [|assumption].
    rewrite Hc1, uint32_t_mod.
    replace (Z.of_nat (length (op :: rest))) with (1 + Z.of_nat (length rest))
      by (cbn [length]; lia).
    rewrite Z.add_mod_idemp_l by lia. f_equal. lia.
Qed.

End FacadeProperties.

(** C1 (amended).  With the injector compiled in, the threshold at [N] and
    the counter at zero, consider the [k]-th gated operation (any of
    [js_malloc], the two [js_calloc] and [js_realloc]) of a sequence, no
    reset in between.  If [k <= N] the check passes and the call goes to the
    backend; if [N < k < 2^32] the check fails, the operation returns null,
    memory is as before and no backend call is made.  At the threshold
    [2^32 - 1] the check passes on every attempt, whatever [k]. *)
Theorem oom_injector_threshold (b : Build) (B : Backend) (N : Z)
    (prefix : list GatedOp) (op : GatedOp) (w0 : World) :
  oom_injection b = true ->
  0 <= N < 2 ^ 32 ->
  OOM_counter w0 = 0 ->
  OOM_maxAllocations w0 = N ->
  let w := snd (run_ops b prefix w0) in
  let k := Z.of_nat (length prefix) + 1 in
  (k <= N ->
     fst (JS_OOM_POSSIBLY_FAIL b w) = false /\
     run_op b op w = backend_op op (set_counter k w)) /\
  (N < k < 2 ^ 32 ->
     fst (JS_OOM_POSSIBLY_FAIL b w) = true /\
     fst (run_op b op w) = nullptr /\
     mem (snd (run_op b op w)) = mem w /\
     backend_calls (trace (snd (run_op b op w))) = backend_calls (trace w)) /\
  (N = 2 ^ 32 - 1 ->
     fst (JS_OOM_POSSIBLY_FAIL b w) = false /\
     run_op b op w = backend_op op (set_counter (k mod 2 ^ 32) w)).
Proof.
  intros He HN Hc0 Hmax w k.
  destruct (run_ops_counters b prefix w0 He) as [Hc Hm]; [rewrite Hc0; lia|].
  fold w in Hc, Hm. rewrite Hc0, Z.add_0_l in Hc. rewrite Hmax in Hm.
  pose proof (Zle_0_nat (length prefix)) as Hlen.
  assert (Hk : k = Z.of_nat (length prefix) + 1) by reflexivity. clearbody k.
  assert (Hgate : forall c, uint32_t (OOM_counter w + 1) = c ->
            (c >? N) = false ->
            fst (JS_OOM_POSSIBLY_FAIL b w) = false /\
            run_op b op w = backend_op op (set_counter c w)).
  { intros c Hcnt Hle. rewrite run_op_gate, JS_OOM_POSSIBLY_FAIL_enabled by assumption.
    rewrite Hcnt, Hm, Hle. cbn [fst snd]. auto. }
  split; [|split].
  - intros Hle. apply Hgate; [|apply gtb_false; lia].
    rewrite Hc, (Z.mod_small (Z.of_nat (length prefix))) by lia.
    rewrite uint32_t_mod, Z.mod_small by lia. lia.
  - intros Hlt.
    assert (Hcnt : uint32_t (OOM_counter w + 1) = k).
    { rewrite Hc, (Z.mod_small (Z.of_nat (length prefix))) by lia.
      rewrite uint32_t_mod, Z.mod_small by lia. lia. }
    assert (Hfail : fst (JS_OOM_POSSIBLY_FAIL b w) = true).
    { rewrite JS_OOM_POSSIBLY_FAIL_enabled by assumption. rewrite Hcnt, Hm.
      rewrite gtb_true by lia. reflexivity. }
    rewrite run_op_gate, Hfail. cbn [fst snd].
    destruct (JS_OOM_POSSIBLY_FAIL_frame b w) as (Hmem & Htr & _). auto.
  - intros HNmax. apply Hgate.
    + rewrite Hc, uint32_t_mod, Z.add_mod_idemp_l by lia. now rewrite Hk.
    + pose proof (Z.mod_pos_bound k (2 ^ 32)). apply gtb_false. lia.
Qed.

(** The spec's scenario: threshold 2, three allocations of 16 bytes give
    two blocks and then null. *)
Example oom_injector_scenario :
  fst (run_ops (debug_build ILP32) (B := block_backend)
         [OpMalloc 16; OpMalloc 16; OpMalloc 16] (start_world 2))
  = [4096; 4096; nullptr].
Proof. reflexivity. Qed.

Lemma oom_injector_threshold_witness :
  (3 <= 2 ->
     fst (JS_OOM_POSSIBLY_FAIL (debug_build ILP32)
            (snd (run_ops (debug_build ILP32) (B := block_backend)
                    [OpMalloc 16; OpCalloc 8] (start_world 2)))) = false /\
     run_op (debug_build ILP32) (B := block_backend) (OpRealloc 4096 32)
       (snd (run_ops (debug_build ILP32) (B := block_backend)
               [OpMalloc 16; OpCalloc 8] (start_world 2)))
     = backend_op (B := block_backend) (OpRealloc 4096 32)
         (set_counter 3
            (snd (run_ops (debug_build ILP32) (B := block_backend)
                    [OpMalloc 16; OpCalloc 8] (start_world 2))))) /\
  (2 < 3 < 2 ^ 32 ->
     fst (JS_OOM_POSSIBLY_FAIL (debug_build ILP32)
            (snd (run_ops (debug_build ILP32) (B := block_backend)
                    [OpMalloc 16; OpCalloc 8] (start_world 2)))) = true /\
     fst (run_op (debug_build ILP32) (B := block_backend) (OpRealloc 4096 32)
            (snd (run_ops (debug_build ILP32) (B := block_backend)
                    [OpMalloc 16; OpCalloc 8] (start_world 2)))) = nullptr /\
     mem (snd (run_op (debug_build ILP32) (B := block_backend) (OpRealloc 4096 32)
            (snd (run_ops (debug_build ILP32) (B := block_backend)
                    [OpMalloc 16; OpCalloc 8] (start_world 2)))))
     = mem (snd (run_ops (debug_build ILP32) (B := block_backend)
                    [OpMalloc 16; OpCalloc 8] (start_world 2))) /\
     backend_calls (trace (snd (run_op (debug_build ILP32) (B := block_backend)
            (OpRealloc 4096 32)
            (snd (run_ops (debug_build ILP32) (B := block_backend)
                    [OpMalloc 16; OpCalloc 8] (start_world 2))))))
     = backend_calls (trace (snd (run_ops (debug_build ILP32) (B := block_backend)
                    [OpMalloc 16; OpCalloc 8] (start_world 2))))) /\
  (2 = 2 ^ 32 - 1 ->
     fst (JS_OOM_POSSIBLY_FAIL (debug_build ILP32)
            (snd (run_ops (debug_build ILP32) (B := block_backend)
                    [OpMalloc 16; OpCalloc 8] (start_world 2)))) = false /\
     run_op (debug_build ILP32) (B := block_backend) (OpRealloc 4096 32)
       (snd (run_ops (debug_build ILP32) (B := block_backend)
               [OpMalloc 16; OpCalloc 8] (start_world 2)))
     = backend_op (B := block_backend) (OpRealloc 4096 32)
         (set_counter (3 mod 2 ^ 32)
            (snd (run_ops (debug_build ILP32) (B := block_backend)
                    [OpMalloc 16; OpCalloc 8] (start_world 2))))).
Proof.
  apply (oom_injector_threshold (debug_build ILP32) block_backend 2
           [OpMalloc 16; OpCalloc 8] (OpRealloc 4096 32) (start_world 2));
    [reflexivity | lia | reflexivity | reflexivity].
Defined.

(** C1 as stated fails at the threshold [2^32 - 1], the largest the counter
    type can hold: attempt number [2^32] comes after the [N]-th and still
    gets its block from the backend. *)
Lemma oom_injector_passes_after_max_threshold :
  4294967295 < Z.of_nat (length (repeat (OpMalloc 16) (Z.to_nat 4294967295))) + 1 /\
  fst (JS_OOM_POSSIBLY_FAIL (debug_build ILP32)
         (snd (run_ops (debug_build ILP32) (B := block_backend)
                 (repeat (OpMalloc 16) (Z.to_nat 4294967295))
                 (start_world 4294967295)))) = false /\
  fst (run_op (debug_build ILP32) (B := block_backend) (OpMalloc 16)
         (snd (run_ops (debug_build ILP32) (B := block_backend)
                 (repeat (OpMalloc 16) (Z.to_nat 4294967295))
                 (start_world 4294967295)))) = 4096.
Proof.
  assert (Hlen : Z.of_nat (length (repeat (OpMalloc 16) (Z.to_nat 4294967295)))
                 = 4294967295).
  { rewrite repeat_length. apply Z2Nat.id. discriminate. }
  split; [rewrite Hlen; reflexivity|].
  destruct (run_ops_counters (debug_build ILP32) (B := block_backend)
              (repeat (OpMalloc 16) (Z.to_nat 4294967295))
              (start_world 4294967295) eq_refl) as [Hc Hm];
    [split; [discriminate | reflexivity]|].
  rewrite Hlen in Hc.
  remember (snd (run_ops (debug_build ILP32) (B := block_backend)
                   (repeat (OpMalloc 16) (Z.to_nat 4294967295))
                   (start_world 4294967295))) as w eqn:Hw.
  clear Hw Hlen.
  rewrite run_op_gate, JS_OOM_POSSIBLY_FAIL_enabled by reflexivity.
  rewrite Hc, Hm. split; reflexivity.
Qed.

(** ** POD bulk helpers *)

(** Masking with the top [l] bits of an [s + l]-bit word. *)
Lemma land_shiftl_ones count l s :
  0 <= l -> 0 <= s ->
  Z.land count (Z.shiftl (Z.ones l) s) =
  Z.shiftl (Z.land (Z.shiftr count s) (Z.ones l)) s.
Proof.
  intros Hl Hs. apply Z.bits_inj'. intros i Hi.
  rewrite Z.land_spec, !Z.shiftl_spec by assumption.
  destruct (Z.ltb_spec i s) as [Hlt|Hge].
  - rewrite !(Z.testbit_neg_r _ (i - s)) by lia. apply andb_false_r.
  - rewrite Z.land_spec, Z.shiftr_spec by lia.
    now replace (i - s + s) with i by lia.
Qed.

(** The mask test is the overflow test when the element size is [2^l]. *)
Lemma land_top_bits count l s :
  0 <= l -> 0 <= s -> 0 <= count < 2 ^ (s + l) ->
  (Z.land count (Z.shiftl (Z.ones l) s) =? 0) = (count * 2 ^ l <? 2 ^ (s + l)).
Proof.
  intros Hl Hs Hc.
  rewrite land_shiftl_ones, Z.land_ones, Z.shiftr_div_pow2, Z.shiftl_mul_pow2 by assumption.
  assert (Hs2 : 0 < 2 ^ s) by (apply Z.pow_pos_nonneg; lia).
  assert (Hl2 : 0 < 2 ^ l) by (apply Z.pow_pos_nonneg; lia).
  assert (Hq : 0 <= count / 2 ^ s < 2 ^ l).
  { split; [apply Z.div_pos; lia|].
    apply Z.div_lt_upper_bound; [lia|]. rewrite <- Z.pow_add_r; lia. }
  rewrite Z.mod_small by assumption.
  rewrite Z.pow_add_r by assumption.
  destruct (Z.ltb_spec (count * 2 ^ l) (2 ^ s * 2 ^ l)) as [Hlt|Hge].
  - assert (count < 2 ^ s) by nia.
    rewrite Z.div_small by lia. reflexivity.
  - assert (2 ^ s <= count) by nia.
    assert (1 <= count / 2 ^ s) by (apply Z.div_le_lower_bound; lia).
    apply Z.eqb_neq. nia.
Qed.

(** For element sizes 1, 4, 8 and 16 the mask test of the bulk helpers is
    exactly the overflow test on [numElems * sizeof(T)]. *)
Lemma MulOverflowMask_exact a sz count :
  In sz [1; 4; 8; 16] ->
  0 <= count <= SIZE_MAX a ->
  (Z.land count (MulOverflowMask a sz) =? 0) = (count * sz <=? SIZE_MAX a).
Proof.
  intros Hsz Hc. unfold SIZE_MAX in *.
  assert (Hltb : forall x y, (x <=? y - 1) = (x <? y)).
  { intros x y. destruct (Z.leb_spec x (y - 1)), (Z.ltb_spec x y); lia || reflexivity. }
  rewrite Hltb.
  destruct a; cbn [BitSize_size_t] in *;
    repeat (destruct Hsz as [<-|Hsz]); try contradiction.
  - change (MulOverflowMask ILP32 1) with (Z.shiftl (Z.ones 0) 32).
    apply (land_top_bits count 0 32); lia.
  - change (MulOverflowMask ILP32 4) with (Z.shiftl (Z.ones 2) 30).
    apply (land_top_bits count 2 30); lia.
  - change (MulOverflowMask ILP32 8) with (Z.shiftl (Z.ones 3) 29).
    apply (land_top_bits count 3 29); lia.
  - change (MulOverflowMask ILP32 16) with (Z.shiftl (Z.ones 4) 28).
    apply (land_top_bits count 4 28); lia.
  - change (MulOverflowMask LP64 1) with (Z.shiftl (Z.ones 0) 64).
    apply (land_top_bits count 0 64); lia.
  - change (MulOverflowMask LP64 4) with (Z.shiftl (Z.ones 2) 62).
    apply (land_top_bits count 2 62); lia.
  - change (MulOverflowMask LP64 8) with (Z.shiftl (Z.ones 3) 61).
    apply (land_top_bits count 3 61); lia.
  - change (MulOverflowMask LP64 16) with (Z.shiftl (Z.ones 4) 60).
    apply (land_top_bits count 4 60); lia.
Qed.

Section PodProperties.

Context (b : Build) {B : Backend}.

Lemma js_malloc_gate bytes w :
  js_malloc b bytes w =
    if fst (JS_OOM_POSSIBLY_FAIL b w)
    then (nullptr, snd (JS_OOM_POSSIBLY_FAIL b w))
    else call_malloc bytes (snd (JS_OOM_POSSIBLY_FAIL b w)).
Proof. exact (run_op_gate b (OpMalloc bytes) w). Qed.

Lemma js_calloc_gate bytes w :
  js_calloc b bytes w =
    if fst (JS_OOM_POSSIBLY_FAIL b w)
    then (nullptr, snd (JS_OOM_POSSIBLY_FAIL b w))
    else call_calloc bytes 1 (snd (JS_OOM_POSSIBLY_FAIL b w)).
Proof. exact (run_op_gate b (OpCalloc bytes) w). Qed.

(** A count refused by the mask: null, and the process state untouched. *)
Lemma js_pod_refused sz count w :
  (Z.land count (MulOverflowMask (arch b) sz) =? 0) = false ->
  js_pod_malloc b sz count w = (nullptr, w) /\
  js_pod_calloc b sz count w = (nullptr, w).
Proof. intros H. unfold js_pod_malloc, js_pod_calloc. rewrite H. split; reflexivity. Qed.

(** A count accepted by the mask goes to the facade with the byte size. *)
Lemma js_pod_accepted sz count w :
  (Z.land count (MulOverflowMask (arch b) sz) =? 0) = true ->
  js_pod_malloc b sz count w = js_malloc b (size_t (arch b) (count * sz)) w /\
  js_pod_calloc b sz count w = js_calloc b (size_t (arch b) (count * sz)) w.
Proof. intros H. unfold js_pod_malloc, js_pod_calloc. rewrite H. split; reflexivity. Qed.

End PodProperties.

(** C2 (amended).  For element sizes 1, 4, 8 and 16 and every count of type
    [size_t]: when [count * sizeof(T)] overflows [size_t], [js_pod_malloc]
    and [js_pod_calloc] return null and touch nothing (no injector check, no
    backend call); otherwise they are [js_malloc] and [js_calloc] of
    [count * sizeof(T)] bytes.  At the largest count that fits, the backend
    is called with that byte size provided the injector check passes; the
    next count is refused whenever it is itself a [size_t] value. *)
Theorem js_pod_overflow_boundary (b : Build) (B : Backend) (sz count : Z) (w : World) :
  In sz [1; 4; 8; 16] ->
  0 <= count <= SIZE_MAX (arch b) ->
  (SIZE_MAX (arch b) < count * sz ->
     js_pod_malloc b sz count w = (nullptr, w) /\
     js_pod_calloc b sz count w = (nullptr, w)) /\
  (count * sz <= SIZE_MAX (arch b) ->
     js_pod_malloc b sz count w = js_malloc b (count * sz) w /\
     js_pod_calloc b sz count w = js_calloc b (count * sz) w) /\
  (count = max_count (arch b) sz ->
     fst (JS_OOM_POSSIBLY_FAIL b w) = false ->
     js_pod_malloc b sz count w =
       call_malloc (count * sz) (snd (JS_OOM_POSSIBLY_FAIL b w)) /\
     js_pod_calloc b sz count w =
       call_calloc (count * sz) 1 (snd (JS_OOM_POSSIBLY_FAIL b w))) /\
  (count = max_count (arch b) sz + 1 ->
     js_pod_malloc b sz count w = (nullptr, w) /\
     js_pod_calloc b sz count w = (nullptr, w)).
Proof.
  intros Hsz Hc.
  pose proof (MulOverflowMask_exact (arch b) sz count Hsz Hc) as Hmask.
  assert (Hpos : 1 <= sz).
  { cbn in Hsz. lia. }
  assert (Hfits : count * sz <= SIZE_MAX (arch b) ->
            js_pod_malloc b sz count w = js_malloc b (count * sz) w /\
            js_pod_calloc b sz count w = js_calloc b (count * sz) w).
  { intros Hle.
    destruct (js_pod_accepted b sz count w) as [-> ->].
    - rewrite Hmask. now apply Z.leb_le.
    - rewrite size_t_small; [auto|]. unfold SIZE_MAX in *. nia. }
  assert (Hover : SIZE_MAX (arch b) < count * sz ->
            js_pod_malloc b sz count w = (nullptr, w) /\
            js_pod_calloc b sz count w = (nullptr, w)).
  { intros Hlt. apply js_pod_refused. rewrite Hmask. apply Z.leb_gt. exact Hlt. }
  assert (HM : 0 <= SIZE_MAX (arch b)).
  { unfold SIZE_MAX. destruct (arch b); cbn; lia. }
  split; [exact Hover|]. split; [exact Hfits|]. split.
  - intros Hmax Hpass. destruct Hfits as [-> ->].
    + subst count. unfold max_count. rewrite Z.mul_comm. apply Z.mul_div_le. lia.
    + rewrite js_malloc_gate, js_calloc_gate, Hpass. split; reflexivity.
  - intros Hmax. apply Hover. subst count. unfold max_count.
    pose proof (Z.mod_pos_bound (SIZE_MAX (arch b)) sz ltac:(lia)).
    pose proof (Z.div_mod (SIZE_MAX (arch b)) sz ltac:(lia)). nia.
Qed.

Lemma js_pod_overflow_boundary_witness :
  In 4 [1; 4; 8; 16] /\
  0 <= 1073741823 <= SIZE_MAX ILP32 /\
  1073741823 = max_count ILP32 4 /\
  js_pod_malloc (debug_build ILP32) (B := block_backend) 4 1073741823 (start_world 5)
  = call_malloc (B := block_backend) (1073741823 * 4)
      (snd (JS_OOM_POSSIBLY_FAIL (debug_build ILP32) (start_world 5))) /\
  js_pod_malloc (debug_build ILP32) (B := block_backend) 4 1073741824 (start_world 5)
  = (nullptr, start_world 5).
Proof.
  assert (Hsz : In 4 [1; 4; 8; 16]) by (simpl; lia).
  assert (Hmax : 0 <= 1073741823 <= SIZE_MAX ILP32) by (unfold SIZE_MAX; simpl; lia).
  assert (Hnext : 0 <= 1073741824 <= SIZE_MAX ILP32) by (unfold SIZE_MAX; simpl; lia).
  split; [exact Hsz|]. split; [exact Hmax|]. split; [reflexivity|]. split.
  - destruct (js_pod_overflow_boundary (debug_build ILP32) block_backend 4
                1073741823 (start_world 5) Hsz Hmax) as (_ & _ & Hcall & _).
    exact (proj1 (Hcall eq_refl eq_refl)).
  - destruct (js_pod_overflow_boundary (debug_build ILP32) block_backend 4
                1073741824 (start_world 5) Hsz Hnext) as (_ & _ & _ & Hrefuse).
    exact (proj1 (Hrefuse eq_refl)).
Defined.

(** C2 as stated fails twice.  With the injector exhausted the largest
    count that fits does not reach the backend; and for one-byte elements
    the count after the largest one is not a [size_t] value: it wraps to 0,
    which is accepted and sent to the backend. *)
Lemma js_pod_malloc_boundary_counterexample :
  (max_count ILP32 1 * 1 <= SIZE_MAX ILP32 /\
   fst (js_pod_malloc (debug_build ILP32) (B := block_backend) 1
          (max_count ILP32 1) (start_world 0)) = nullptr /\
   backend_calls
     (trace (snd (js_pod_malloc (debug_build ILP32) (B := block_backend) 1
                    (max_count ILP32 1) (start_world 0)))) = []) /\
  (size_t ILP32 (max_count ILP32 1 + 1) = 0 /\
   fst (js_pod_malloc (release_build ILP32) (B := block_backend) 1
          (size_t ILP32 (max_count ILP32 1 + 1)) (start_world 0)) = 4096 /\
   trace (snd (js_pod_malloc (release_build ILP32) (B := block_backend) 1
                 (size_t ILP32 (max_count ILP32 1 + 1)) (start_world 0)))
   = [EvMalloc 0]).
Proof.
  split; [split; [|split]|split; [|split]]; reflexivity.
Qed.

(** C10 (amended).  For every element size, a count of 0 passes the mask
    test, and [js_pod_malloc<T>(0)] and [js_pod_calloc<T>(0)] are
    [js_malloc(0)] and [js_calloc(0)]: the backend gets [malloc(0)] and
    [calloc(0, 1)] when the injector check passes, and no call when it
    fails. *)
Theorem js_pod_zero_count (b : Build) (B : Backend) (sz : Z) (w : World) :
  (Z.land 0 (MulOverflowMask (arch b) sz) =? 0) = true /\
  js_pod_malloc b sz 0 w = js_malloc b 0 w /\
  js_pod_calloc b sz 0 w = js_calloc b 0 w /\
  (fst (JS_OOM_POSSIBLY_FAIL b w) = false ->
     js_pod_malloc b sz 0 w = call_malloc 0 (snd (JS_OOM_POSSIBLY_FAIL b w)) /\
     js_pod_calloc b sz 0 w = call_calloc 0 1 (snd (JS_OOM_POSSIBLY_FAIL b w))) /\
  (fst (JS_OOM_POSSIBLY_FAIL b w) = true ->
     js_pod_malloc b sz 0 w = (nullptr, snd (JS_OOM_POSSIBLY_FAIL b w)) /\
     js_pod_calloc b sz 0 w = (nullptr, snd (JS_OOM_POSSIBLY_FAIL b w))).
Proof.
  assert (Hm : (Z.land 0 (MulOverflowMask (arch b) sz) =? 0) = true)
    by (rewrite Z.land_0_l; reflexivity).
  destruct (js_pod_accepted b sz 0 w Hm) as [Hmal Hcal].
  assert (Hz : size_t (arch b) (0 * sz) = 0).
  { rewrite Z.mul_0_l. unfold size_t, wrap. apply Z.land_0_l. }
  rewrite Hz in Hmal, Hcal.
  split; [exact Hm|]. split; [exact Hmal|]. split; [exact Hcal|].
  rewrite Hmal, Hcal, js_malloc_gate, js_calloc_gate.
  split; intros ->; split; reflexivity.
Qed.

Lemma js_pod_zero_count_witness :
  fst (JS_OOM_POSSIBLY_FAIL (debug_build LP64) (start_world 1)) = false /\
  js_pod_malloc (debug_build LP64) (B := block_backend) 24 0 (start_world 1)
  = call_malloc (B := block_backend) 0
      (snd (JS_OOM_POSSIBLY_FAIL (debug_build LP64) (start_world 1))) /\
  js_pod_calloc (debug_build LP64) (B := block_backend) 24 0 (start_world 1)
  = call_calloc (B := block_backend) 0 1
      (snd (JS_OOM_POSSIBLY_FAIL (debug_build LP64) (start_world 1))).
Proof.
  split; [reflexivity|].
  destruct (js_pod_zero_count (debug_build LP64) block_backend 24 (start_world 1))
    as (_ & _ & _ & Hpass & _).
  exact (Hpass eq_refl).
Defined.

(** C10 as stated fails when the injector is exhausted: the zero-byte
    request passes the mask test and still never reaches the backend. *)
Lemma js_pod_zero_count_counterexample :
  (Z.land 0 (MulOverflowMask ILP32 4) =? 0) = true /\
  fst (js_pod_malloc (debug_build ILP32) (B := block_backend) 4 0 (start_world 0))
  = nullptr /\
  backend_calls
    (trace (snd (js_pod_malloc (debug_build ILP32) (B := block_backend) 4 0
                   (start_world 0)))) = [] /\
  fst (js_pod_calloc (debug_build ILP32) (B := block_backend) 4 0 (start_world 0))
  = nullptr /\
  backend_calls
    (trace (snd (js_pod_calloc (debug_build ILP32) (B := block_backend) 4 0
                   (start_world 0)))) = [].
Proof. repeat split; reflexivity. Qed.

(** ** Hash scrambling *)

(** C3.  [ScrambleHashCode] is a function of the hash code alone, defined
    on every input, with result [(h * 0x9E3779B9) mod 2^32], a 32-bit
    value. *)
Theorem ScrambleHashCode_spec (h : Z) :
  ScrambleHashCode h = (h * 0x9E3779B9) mod 2 ^ 32 /\
  0 <= ScrambleHashCode h < 2 ^ 32.
Proof.
  assert (He : ScrambleHashCode h = (h * 0x9E3779B9) mod 2 ^ 32).
  { unfold ScrambleHashCode, goldenRatio. rewrite !uint32_t_mod.
    apply Z.mul_mod_idemp_l. lia. }
  split; [exact He|]. rewrite He. apply Z.mod_pos_bound. lia.
Qed.

Example ScrambleHashCode_consecutive :
  ScrambleHashCode 1 = 0x9E3779B9 /\ ScrambleHashCode 2 = 0x3C6EF372.
Proof. split; reflexivity. Qed.

(** ** Typed construction helpers *)

Section TypedProperties.

Context (b : Build) {B : Backend}.

Lemma JS_NEW_BODY_cases (allocator : Z -> M Z) t parms w :
  JS_NEW_BODY allocator t parms w =
    if fst (allocator (sizeof t) w) =? nullptr
    then (nullptr, snd (allocator (sizeof t) w))
    else placement_new t (fst (allocator (sizeof t) w)) parms
           (snd (allocator (sizeof t) w)).
Proof.
  unfold JS_NEW_BODY, bind. destruct (allocator (sizeof t) w) as [memory w1].
  cbn [fst snd]. destruct (memory =? nullptr); reflexivity.
Qed.

(** Addresses below the start are not written by [memset]. *)
Lemma memset_bytes_below n : forall p c m x,
  x < p -> memset_bytes p c n m x = m x.
Proof.
  induction n as [|n IH]; intros p c m x Hx; cbn [memset_bytes]; [reflexivity|].
  rewrite IH by lia. unfold store_byte.
  destruct (Z.eqb_spec x p); [lia | reflexivity].
Qed.

(** Every one of the [n] bytes from [p] on holds the fill byte. *)
Lemma memset_bytes_inside n : forall p c m i,
  0 <= i < Z.of_nat n -> memset_bytes p c n m (p + i) = uint8_t c.
Proof.
  induction n as [|n IH]; intros p c m i Hi; [cbn in Hi; lia|].
  cbn [memset_bytes]. destruct (Z.eq_dec i 0) as [->|Hne].
  - rewrite Z.add_0_r, memset_bytes_below by lia.
    unfold store_byte. now rewrite Z.eqb_refl.
  - replace (p + i) with (p + 1 + (i - 1)) by lia. apply IH. lia.
Qed.

End TypedProperties.

(** C4.  For a class [T] and zero to twelve parameters, [js_new<T>] asks
    [js_malloc] for [sizeof(T)] bytes; on a non-null block it runs the
    constructor on that block, once, and returns the block; on null it
    returns null and the state is the one [js_malloc] left: no constructor
    runs. *)
Theorem js_new_all_or_nothing (b : Build) (B : Backend) (t : Class)
    (parms : list Z) (w : World) :
  (length parms <= 12)%nat ->
  let memory := fst (js_malloc b (sizeof t) w) in
  let w1 := snd (js_malloc b (sizeof t) w) in
  (memory <> nullptr ->
     js_new b t parms w =
       (memory, log (EvConstruct memory parms)
                  (set_mem (constructor t parms memory (mem w1)) w1))) /\
  (memory = nullptr -> js_new b t parms w = (nullptr, w1)) /\
  trace (snd (js_new b t parms w)) =
    trace w1 ++ (if memory =? nullptr then [] else [EvConstruct memory parms]).
Proof.
  intros _ memory w1. unfold js_new. rewrite JS_NEW_BODY_cases.
  fold memory w1. destruct (Z.eqb_spec memory nullptr) as [He|Hne].
  - split; [intros Hn; contradiction|]. split; [reflexivity|].
    cbn [snd]. now rewrite app_nil_r.
  - split; [reflexivity|]. split; [intros He; contradiction|]. reflexivity.
Qed.

Lemma js_new_all_or_nothing_witness :
  (length [7; 8; 9] <= 12)%nat /\
  js_new (debug_build ILP32) (B := block_backend) (byte_class 8) [7; 8; 9]
    (start_world 1)
  = (4096,
     log (EvConstruct 4096 [7; 8; 9])
       (set_mem (store_byte 4096 7 zero_memory)
          (log (EvMalloc 8) (set_counter 1 (start_world 1))))) /\
  js_new (debug_build ILP32) (B := block_backend) (byte_class 8) [7; 8; 9]
    (start_world 0)
  = (nullptr, set_counter 1 (start_world 0)).
Proof.
  assert (Ha : (length [7; 8; 9] <= 12)%nat) by (simpl; lia).
  split; [exact Ha|]. split.
  - destruct (js_new_all_or_nothing (debug_build ILP32) block_backend (byte_class 8)
                [7; 8; 9] (start_world 1) Ha) as (Hok & _ & _).
    apply Hok. discriminate.
  - destruct (js_new_all_or_nothing (debug_build ILP32) block_backend (byte_class 8)
                [7; 8; 9] (start_world 0) Ha) as (_ & Hnull & _).
    apply Hnull. reflexivity.
Defined.

(** C5.  On a non-null pointer [js_delete_poison<T>] runs the destructor,
    then [memset]s the [sizeof(T)] bytes of the object to [0x3B], then
    frees: the memory it leaves is the backend's [free] applied to the
    poisoned memory, which is the destructor's result with the object's
    bytes overwritten; in the state handed to [js_free], every byte of the
    object is [0x3B]. *)
Theorem js_delete_poison_order (B : Backend) (t : Class) (p : Z) (w : World) :
  p <> nullptr ->
  let w1 := snd (call_destructor t p w) in
  let w2 := snd (call_memset p 0x3B (sizeof t) w1) in
  js_delete_poison t p w = js_free p w2 /\
  (forall i, 0 <= i < sizeof t -> mem w2 (p + i) = 0x3B) /\
  trace (snd (js_delete_poison t p w)) =
    trace w ++ [EvDestruct p; EvMemset p 0x3B (sizeof t); EvFree p] /\
  mem w1 = destructor t p (mem w) /\
  mem w2 = memset_bytes p 0x3B (Z.to_nat (sizeof t)) (destructor t p (mem w)) /\
  mem (snd (js_delete_poison t p w)) =
    free p (memset_bytes p 0x3B (Z.to_nat (sizeof t)) (destructor t p (mem w))) /\
  (forall i, 0 <= i < sizeof t ->
     memset_bytes p 0x3B (Z.to_nat (sizeof t)) (destructor t p (mem w)) (p + i)
     = 0x3B).
Proof.
  intros Hp w1 w2. unfold js_delete_poison.
  destruct (Z.eqb_spec p nullptr) as [He|_]; [contradiction|].
  split; [reflexivity|]. split; [|split; [|repeat split]].
  - intros i Hi. subst w2. cbn [call_memset snd log set_mem mem].
    rewrite memset_bytes_inside by lia. reflexivity.
  - cbn. rewrite <- !app_assoc. reflexivity.
  - intros i Hi. rewrite memset_bytes_inside by lia. reflexivity.
Qed.

Lemma js_delete_poison_order_witness :
  4096 <> nullptr /\
  mem (snd (js_delete_poison (B := header_backend) (flag_class 8) 4096 live_world)) 8
  = 1 /\
  mem (snd (js_delete_poison (B := header_backend) (flag_class 8) 4096 live_world)) 4096
  = 0x3B /\
  mem (snd (js_delete_poison (B := header_backend) (flag_class 8) 4096 live_world)) 4103
  = 0x3B /\
  mem (snd (js_delete_poison (B := header_backend) (flag_class 8) 4096 live_world)) 4104
  = 0 /\
  mem (snd (js_delete_poison (B := header_backend) (flag_class 8) 4096 live_world)) 4095
  = 0 /\
  trace (snd (js_delete_poison (B := header_backend) (flag_class 8) 4096 live_world))
  = [EvDestruct 4096; EvMemset 4096 0x3B 8; EvFree 4096].
Proof.
  assert (Hp : 4096 <> nullptr) by discriminate.
  split; [exact Hp|].
  destruct (js_delete_poison_order header_backend (flag_class 8) 4096 live_world Hp)
    as (_ & _ & Htrace & _ & _ & Hmem & _).
  split; [exact (f_equal (fun m : Memory => m 8) Hmem)|].
  split; [exact (f_equal (fun m : Memory => m 4096) Hmem)|].
  split; [exact (f_equal (fun m : Memory => m 4103) Hmem)|].
  split; [exact (f_equal (fun m : Memory => m 4104) Hmem)|].
  split; [exact (f_equal (fun m : Memory => m 4095) Hmem)|].
  exact Htrace.
Defined.

(** C6.  [js_delete<T>(nullptr)] does nothing; on a non-null pointer
    [js_delete<T>] runs the destructor and then frees through [js_free]:
    the memory it leaves is the backend's [free] applied to the
    destructor's result. *)
Theorem js_delete_spec (B : Backend) (t : Class) (p : Z) (w : World) :
  js_delete t nullptr w = (tt, w) /\
  (p <> nullptr ->
     js_delete t p w = js_free p (snd (call_destructor t p w)) /\
     trace (snd (js_delete t p w)) = trace w ++ [EvDestruct p; EvFree p] /\
     mem (snd (js_delete t p w)) = free p (destructor t p (mem w)) /\
     OOM_counter (snd (js_delete t p w)) = OOM_counter w).
Proof.
  split; [reflexivity|]. intros Hp. unfold js_delete.
  destruct (Z.eqb_spec p nullptr) as [He|_]; [contradiction|].
  split; [reflexivity|]. split; [|split; reflexivity].
  cbn. rewrite <- app_assoc. reflexivity.
Qed.

Lemma js_delete_spec_witness :
  js_delete (B := header_backend) (flag_class 8) nullptr live_world
  = (tt, live_world) /\
  4096 <> nullptr /\
  mem (snd (js_delete (B := header_backend) (flag_class 8) 4096 live_world)) 8 = 1 /\
  mem (snd (js_delete (B := header_backend) (flag_class 8) 4096 live_world)) 4095 = 0 /\
  mem (snd (js_delete (B := header_backend) (flag_class 8) 4096 live_world)) 4096 = 7 /\
  trace (snd (js_delete (B := header_backend) (flag_class 8) 4096 live_world))
  = [EvDestruct 4096; EvFree 4096].
Proof.
  assert (Hp : 4096 <> nullptr) by discriminate.
  destruct (js_delete_spec header_backend (flag_class 8) 4096 live_world)
    as (Hnull & Hrun).
  destruct (Hrun Hp) as (_ & Htrace & Hmem & _).
  split; [exact Hnull|]. split; [exact Hp|].
  split; [exact (f_equal (fun m : Memory => m 8) Hmem)|].
  split; [exact (f_equal (fun m : Memory => m 4095) Hmem)|].
  split; [exact (f_equal (fun m : Memory => m 4096) Hmem)|].
  exact Htrace.
Defined.

(** ** Scoped pointers *)

Section ScopedProperties.

Context {B : Backend}.

(** One invocation of the release policy on a non-null value makes exactly
    the calls of [release_events]. *)
Lemma release_trace (k : ScopedKind) v w :
  v <> nullptr ->
  trace (snd (release (traits_of k) v w)) = trace w ++ release_events k v.
Proof.
  intros Hv. destruct k as [|t|t]; cbn [traits_of release release_events
    ScopedFreePtrTraits ScopedDeletePtrTraits ScopedReleasePtrTraits].
  - reflexivity.
  - unfold js_delete. destruct (Z.eqb_spec v nullptr); [contradiction|].
    cbn. now rewrite <- app_assoc.
  - destruct (Z.eqb_spec v nullptr); [contradiction|]. reflexivity.
Qed.

Lemma empty_traits_of (k : ScopedKind) : empty (traits_of k) = nullptr.
Proof. destruct k; reflexivity. Qed.

Lemma Scoped_destroy_owning (k : ScopedKind) v w :
  v <> nullptr ->
  Scoped_destroy (traits_of k) (Scoped_owning v) w = release (traits_of k) v w.
Proof.
  intros Hv. unfold Scoped_destroy, Scoped_owning. cbn [value].
  rewrite empty_traits_of. destruct (Z.eqb_spec v nullptr); [contradiction|reflexivity].
Qed.

Lemma Scoped_destroy_empty (tr : ScopedTraits) w :
  Scoped_destroy tr (Scoped_empty tr) w = (tt, w).
Proof. unfold Scoped_destroy, Scoped_empty. cbn [value]. now rewrite Z.eqb_refl. Qed.

End ScopedProperties.

(** C7.  For each of the three scoped wrappers and a non-null value [v]:
    destroying a wrapper that owns [v] is one invocation of its release
    policy on [v]; after release-and-forget the caller has [v] and
    destroying the wrapper does nothing; after a move, destroying the
    source does nothing and destroying the destination is one invocation
    of the release policy on [v], so that over both destructions the
    release calls for [v] are made once. *)
Theorem scoped_release_exactly_once (B : Backend) (k : ScopedKind) (v : Z) (w : World) :
  v <> nullptr ->
  let tr := traits_of k in
  (Scoped_destroy tr (Scoped_owning v) w = release tr v w /\
   trace (snd (Scoped_destroy tr (Scoped_owning v) w)) = trace w ++ release_events k v) /\
  (fst (Scoped_forget tr (Scoped_owning v)) = v /\
   Scoped_destroy tr (snd (Scoped_forget tr (Scoped_owning v))) w = (tt, w)) /\
  (Scoped_destroy tr (snd (Scoped_move tr (Scoped_owning v))) w = (tt, w) /\
   Scoped_destroy tr (fst (Scoped_move tr (Scoped_owning v))) w = release tr v w /\
   trace (snd ((Scoped_destroy tr (snd (Scoped_move tr (Scoped_owning v))) ;;
                Scoped_destroy tr (fst (Scoped_move tr (Scoped_owning v)))) w))
   = trace w ++ release_events k v).
Proof.
  intros Hv tr. subst tr.
  pose proof (Scoped_destroy_owning k v w Hv) as Hown.
  pose proof (release_trace k v w Hv) as Htr.
  split; [split; [exact Hown | now rewrite Hown]|].
  split; [split; [reflexivity | apply Scoped_destroy_empty]|].
  split; [apply Scoped_destroy_empty|].
  split; [exact Hown|].
  unfold bind. change (snd (Scoped_move (traits_of k) (Scoped_owning v)))
    with (Scoped_empty (traits_of k)).
  rewrite Scoped_destroy_empty.
  change (fst (Scoped_move (traits_of k) (Scoped_owning v))) with (Scoped_owning v).
  now rewrite Hown.
Qed.

Lemma scoped_release_exactly_once_witness :
  4096 <> nullptr /\
  trace (snd (Scoped_destroy (traits_of (B := block_backend) (ScopedJSDeletePtr (byte_class 8)))
                (Scoped_owning 4096) (start_world 0)))
  = [EvDestruct 4096; EvFree 4096] /\
  Scoped_destroy (traits_of (B := block_backend) (ScopedJSDeletePtr (byte_class 8)))
    (snd (Scoped_forget (traits_of (B := block_backend) (ScopedJSDeletePtr (byte_class 8)))
            (Scoped_owning 4096))) (start_world 0)
  = (tt, start_world 0).
Proof.
  assert (Hv : 4096 <> nullptr) by discriminate.
  split; [exact Hv|].
  destruct (scoped_release_exactly_once block_backend (ScopedJSDeletePtr (byte_class 8))
              4096 (start_world 0) Hv) as ((_ & Honce) & (_ & Hzero) & _).
  split; [exact Honce | exact Hzero].
Defined.

(** ** Poisoned pointer words *)

Lemma uint8_t_range z : 0 <= uint8_t z < 256.
Proof. rewrite uint8_t_mod. apply Z.mod_pos_bound. reflexivity. Qed.

Lemma byte_of_cons x r i :
  0 <= x < 256 -> 0 <= i ->
  byte_of i (x + 256 * r) = if i =? 0 then x else byte_of (i - 1) r.
Proof.
  intros Hx Hi. unfold byte_of. change 255 with (Z.ones 8).
  rewrite !Z.land_ones, !Z.shiftr_div_pow2 by lia.
  destruct (Z.eqb_spec i 0) as [->|Hne].
  - replace (8 * 0) with 0 by reflexivity. rewrite Z.pow_0_r, Z.div_1_r.
    replace (x + 256 * r) with (x + r * 2 ^ 8) by lia.
    rewrite Z.mod_add by discriminate.
    apply Z.mod_small. exact Hx.
  - replace (8 * i) with (8 + 8 * (i - 1)) by lia.
    rewrite Z.pow_add_r, <- Z.div_div by lia.
    replace (x + 256 * r) with (r * 2 ^ 8 + x) by lia.
    rewrite Z.div_add_l by discriminate.
    rewrite (Z.div_small x (2 ^ 8)), Z.add_0_r by exact Hx.
    rewrite Z.shiftr_div_pow2 by lia. reflexivity.
Qed.

(** Byte [i] of the word loaded from [addr] is the byte at [addr + i]. *)
Lemma byte_of_load_bytes n : forall addr m i,
  0 <= i < Z.of_nat n ->
  byte_of i (load_bytes n addr m) = uint8_t (m (addr + i)).
Proof.
  induction n as [|n IH]; intros addr m i Hi; [cbn in Hi; lia|].
  cbn [load_bytes]. rewrite byte_of_cons by (apply uint8_t_range || lia).
  destruct (Z.eqb_spec i 0) as [->|Hne].
  - now rewrite Z.add_0_r.
  - rewrite IH by lia. f_equal. f_equal. lia.
Qed.

Lemma uint8_t_idemp z : uint8_t (uint8_t z) = uint8_t z.
Proof. rewrite (uint8_t_mod (uint8_t z)). apply Z.mod_small, uint8_t_range. Qed.

(** The mask [0xff000000] selects byte 3 of the pointer word, on both
    pointer widths. *)
Lemma pointer_mask_byte3 a v :
  uint32_t (Z.land (uintptr_t a v) 0xff000000) = Z.shiftl (byte_of 3 v) 24.
Proof.
  unfold uint32_t, uintptr_t, wrap, byte_of.
  rewrite <- !Z.land_assoc.
  replace (Z.land (Z.ones (BitSize_size_t a)) (Z.land 4278190080 (Z.ones 32)))
    with (Z.shiftl (Z.ones 8) 24) by (destruct a; reflexivity).
  apply land_shiftl_ones; lia.
Qed.

Lemma pattern_mask_byte3 pat :
  uint32_t (Z.shiftl pat 24) = Z.shiftl (uint8_t pat) 24.
Proof.
  rewrite uint32_t_mod, uint8_t_mod, !Z.shiftl_mul_pow2 by lia.
  change (2 ^ 32) with (2 ^ 8 * 2 ^ 24).
  apply Z.mul_mod_distr_r; lia.
Qed.

Lemma shiftl_24_eqb x y : (Z.shiftl x 24 =? Z.shiftl y 24) = (x =? y).
Proof.
  rewrite !Z.shiftl_mul_pow2 by lia.
  destruct (Z.eqb_spec x y) as [->|Hne]; [apply Z.eqb_refl|].
  apply Z.eqb_neq. lia.
Qed.

(** C8 (amended).  With root analysis compiled in, [PoisonPtr] stores the
    low byte of [JS_FREE_PATTERN] at offset 3 of the pointer word it is
    given the address of: read back least significant byte first, byte 3 of
    the word (bits 24 to 31) is the pattern and every other byte is as
    before, on 32-bit and on 64-bit pointers; [IsPoisonedPtr] is true
    exactly when byte 3 of the pointer is the pattern.  Without root
    analysis [PoisonPtr] does nothing and [IsPoisonedPtr] is false. *)
Theorem PoisonPtr_byte3 (b : Build) (pat addr v : Z) (w : World) :
  (root_analysis b = true ->
     (forall i, 0 <= i < pointer_bytes (arch b) ->
        byte_of i (load_pointer (arch b) addr (mem (snd (PoisonPtr b pat addr w))))
        = if i =? 3 then uint8_t pat
          else byte_of i (load_pointer (arch b) addr (mem w))) /\
     (forall x, x <> addr + 3 ->
        mem (snd (PoisonPtr b pat addr w)) x = mem w x) /\
     trace (snd (PoisonPtr b pat addr w)) = trace w /\
     IsPoisonedPtr b pat v = (byte_of 3 v =? uint8_t pat)) /\
  (root_analysis b = false ->
     PoisonPtr b pat addr w = (tt, w) /\ IsPoisonedPtr b pat v = false).
Proof.
  split; intros Hr; unfold PoisonPtr, IsPoisonedPtr; rewrite Hr; [|auto].
  split; [|split; [|split; [reflexivity|]]].
  - intros i Hi. unfold load_pointer.
    assert (Hn : Z.of_nat (Z.to_nat (pointer_bytes (arch b))) = pointer_bytes (arch b))
      by (destruct (arch b); reflexivity).
    rewrite !byte_of_load_bytes by lia.
    cbn [snd set_mem mem]. unfold store_byte.
    destruct (Z.eqb_spec i 3) as [->|Hne].
    + rewrite Z.eqb_refl. apply uint8_t_idemp.
    + destruct (Z.eqb_spec (addr + i) (addr + 3)); [lia | reflexivity].
  - intros x Hx. cbn [snd set_mem mem]. unfold store_byte.
    destruct (Z.eqb_spec x (addr + 3)); [contradiction | reflexivity].
  - cbv zeta. rewrite pointer_mask_byte3, pattern_mask_byte3. apply shiftl_24_eqb.
Qed.

Lemma PoisonPtr_byte3_witness :
  root_analysis (analysis_build LP64) = true /\
  byte_of 3 (load_pointer LP64 4096
               (mem (snd (PoisonPtr (analysis_build LP64) 0xDA 4096 (start_world 0)))))
  = 0xDA /\
  IsPoisonedPtr (analysis_build LP64) 0xDA 0x7fffDA001000 = true /\
  root_analysis (release_build LP64) = false /\
  PoisonPtr (release_build LP64) 0xDA 4096 (start_world 0) = (tt, start_world 0).
Proof.
  destruct (PoisonPtr_byte3 (analysis_build LP64) 0xDA 4096 0x7fffDA001000 (start_world 0))
    as (Hon & _).
  destruct (PoisonPtr_byte3 (release_build LP64) 0xDA 4096 0 (start_world 0))
    as (_ & Hoff).
  split; [reflexivity|]. split; [exact (proj1 (Hon eq_refl) 3 ltac:(change (0 <= 3 < 8); lia))|].
  split; [exact (proj2 (proj2 (proj2 (Hon eq_refl))))|].
  split; [reflexivity|]. exact (proj1 (Hoff eq_refl)).
Defined.

(** C8 as stated fails on both pointer widths: a pointer whose
    second-most-significant byte is the pattern is not reported as
    poisoned, one whose byte 3 is the pattern is, and poisoning a zeroed
    pointer word sets bits 24 to 31 and nothing else. *)
Lemma PoisonPtr_not_second_most_significant_byte :
  (second_most_significant_byte ILP32 0x00DA1000 = 0xDA /\
   IsPoisonedPtr (analysis_build ILP32) 0xDA 0x00DA1000 = false) /\
  (second_most_significant_byte ILP32 0xDA001000 = 0 /\
   IsPoisonedPtr (analysis_build ILP32) 0xDA 0xDA001000 = true) /\
  (second_most_significant_byte LP64 0x00DA000000001000 = 0xDA /\
   IsPoisonedPtr (analysis_build LP64) 0xDA 0x00DA000000001000 = false) /\
  (second_most_significant_byte LP64 0x00007fffDA001000 = 0 /\
   IsPoisonedPtr (analysis_build LP64) 0xDA 0x00007fffDA001000 = true) /\
  load_pointer ILP32 4096
    (mem (snd (PoisonPtr (analysis_build ILP32) 0xDA 4096 (start_world 0))))
  = 0xDA000000 /\
  load_pointer LP64 4096
    (mem (snd (PoisonPtr (analysis_build LP64) 0xDA 4096 (start_world 0))))
  = 0x00000000DA000000.
Proof. repeat split; reflexivity. Qed.

Lemma IsPoisonedPtr_enabled (b : Build) (pat v : Z) :
  root_analysis b = true ->
  IsPoisonedPtr b pat v = (byte_of 3 v =? uint8_t pat).
Proof.
  intros Hr. unfold IsPoisonedPtr. rewrite Hr. cbv zeta.
  rewrite pointer_mask_byte3, pattern_mask_byte3. apply shiftl_24_eqb.
Qed.

(** Whatever byte [JS_FREE_PATTERN] is, some pointer has it as its
    second-most-significant byte and is not reported as poisoned. *)
Lemma IsPoisonedPtr_decoy (a : Arch) (pat : Z) :
  second_most_significant_byte a (decoy_pointer a pat) = uint8_t pat /\
  IsPoisonedPtr (analysis_build a) pat (decoy_pointer a pat) = false.
Proof.
  rewrite IsPoisonedPtr_enabled by reflexivity.
  assert (Hall : forallb
            (fun p => (second_most_significant_byte a
                         (Z.lor (Z.shiftl p (8 * (pointer_bytes a - 2)))
                                (Z.shiftl (uint8_t (p + 1)) 24)) =? p)
                      && negb (byte_of 3
                                 (Z.lor (Z.shiftl p (8 * (pointer_bytes a - 2)))
                                        (Z.shiftl (uint8_t (p + 1)) 24)) =? p))
            (map Z.of_nat (seq 0 256)) = true)
    by (destruct a; vm_compute; reflexivity).
  rewrite forallb_forall in Hall.
  pose proof (uint8_t_range pat) as Hp.
  specialize (Hall (uint8_t pat)).
  destruct (andb_prop _ _ (Hall ltac:(
    rewrite <- (Z2Nat.id (uint8_t pat)) by lia;
    apply in_map, in_seq; lia))) as [H2 H3].
  unfold decoy_pointer. split; [now apply Z.eqb_eq|].
  now apply negb_true_iff.
Qed.

(** ** Sentinel bytes *)

(** The byte [js_delete_poison] fills with, on every class, pointer and
    state. *)
Lemma js_delete_poison_fill (B : Backend) (t : Class) (p : Z) (w : World) :
  p <> nullptr ->
  In (EvMemset p (sentinel PoisonedOnDelete) (sizeof t))
     (trace (snd (js_delete_poison t p w))).
Proof.
  intros Hp. unfold js_delete_poison.
  destruct (Z.eqb_spec p nullptr); [contradiction|].
  cbn. rewrite !in_app_iff. left. right. left. reflexivity.
Qed.

(** C9 (amended).  The eight pattern macros of the header are pairwise
    distinct; the byte [js_delete_poison] writes is [0x3B], the value of
    [JS_SWEPT_CODE_PATTERN]; so two lifecycle states share a sentinel byte
    exactly when they are the same state or are swept-code and
    poisoned-on-delete. *)
Theorem sentinel_bytes_distinct_but_one :
  NoDup pattern_macros /\
  sentinel PoisonedOnDelete = JS_SWEPT_CODE_PATTERN /\
  forall s1 s2 : Lifecycle,
    sentinel s1 = sentinel s2 <->
    (s1 = s2 \/
     (s1 = SweptCode /\ s2 = PoisonedOnDelete) \/
     (s1 = PoisonedOnDelete /\ s2 = SweptCode)).
Proof.
  split; [|split; [reflexivity|]].
  - unfold pattern_macros.
    repeat (constructor; [cbn; intros H; repeat (destruct H as [H|H]; try discriminate H); exact H|]).
    constructor.
  - intros s1 s2; destruct s1, s2;
      (split;
       [ intros H;
         first [ left; reflexivity
               | right; left; split; reflexivity
               | right; right; split; reflexivity
               | discriminate H ]
       | intros [H|[[H1 H2]|[H1 H2]]];
         first [ reflexivity | discriminate ] ]).
Qed.

(** C9 as stated fails: poisoned-on-delete and swept-code are two states
    with the same byte. *)
Lemma sentinel_bytes_collision :
  sentinel PoisonedOnDelete = 0x3B /\
  sentinel SweptCode = 0x3B /\
  PoisonedOnDelete <> SweptCode.
Proof. repeat split; discriminate. Qed.

(** * Further properties of the header *)

(** ** The injector over whole call sequences *)

Section InjectorSequences.

Context (b : Build) {B : Backend}.

(** A check that passes adds nothing to the log. *)
Lemma JS_OOM_POSSIBLY_FAIL_pass_trace w :
  fst (JS_OOM_POSSIBLY_FAIL b w) = false ->
  trace (snd (JS_OOM_POSSIBLY_FAIL b w)) = trace w.
Proof.
  destruct (oom_injection b) eqn:He.
  - rewrite JS_OOM_POSSIBLY_FAIL_enabled by assumption.
    destruct (_ >? _); cbn [fst snd]; [discriminate | reflexivity].
  - rewrite JS_OOM_POSSIBLY_FAIL_disabled by assumption. reflexivity.
Qed.

(** A check that fails logs the breakpoint call, if there is one. *)
Lemma JS_OOM_POSSIBLY_FAIL_fail_trace w :
  fst (JS_OOM_POSSIBLY_FAIL b w) = true ->
  trace (snd (JS_OOM_POSSIBLY_FAIL b w)) =
    trace w ++ (if JS_OOM_BREAKPOINT b then [EvBreakpoint] else []).
Proof.
  destruct (oom_injection b) eqn:He.
  - rewrite JS_OOM_POSSIBLY_FAIL_enabled by assumption.
    destruct (_ >? _); cbn [fst snd]; [|discriminate].
    intros _. destruct (JS_OOM_BREAKPOINT b); cbn; [reflexivity | now rewrite app_nil_r].
  - rewrite JS_OOM_POSSIBLY_FAIL_disabled by assumption. discriminate.
Qed.

(** The outcome of the check in terms of the counter before it. *)
Lemma JS_OOM_POSSIBLY_FAIL_outcome w :
  oom_injection b = true ->
  fst (JS_OOM_POSSIBLY_FAIL b w) =
    ((OOM_counter w + 1) mod 2 ^ 32 >? OOM_maxAllocations w) /\
  OOM_counter (snd (JS_OOM_POSSIBLY_FAIL b w)) = (OOM_counter w + 1) mod 2 ^ 32.
Proof.
  intros He. rewrite JS_OOM_POSSIBLY_FAIL_enabled by assumption.
  rewrite uint32_t_mod.
  destruct (_ >? _); cbn [fst snd]; [destruct (JS_OOM_BREAKPOINT b)|]; auto.
Qed.

Lemma length_backend_calls_snoc t e :
  Z.of_nat (length (backend_calls (t ++ [e]))) =
  Z.of_nat (length (backend_calls t)) + (if is_backend_call e then 1 else 0).
Proof.
  rewrite backend_calls_app, length_app. cbn [backend_calls filter].
  destruct (is_backend_call e); cbn [length]; lia.
Qed.

(** Backend calls made by one gated operation: one if the check passes,
    none if it fails. *)
Lemma run_op_backend_count op w :
  Z.of_nat (length (backend_calls (trace (snd (run_op b op w))))) =
  Z.of_nat (length (backend_calls (trace w))) +
  (if fst (JS_OOM_POSSIBLY_FAIL b w) then 0 else 1).
Proof.
  rewrite run_op_gate.
  destruct (JS_OOM_POSSIBLY_FAIL_frame b w) as (_ & Hbc & _).
  destruct (fst (JS_OOM_POSSIBLY_FAIL b w)); cbn [snd].
  - rewrite Hbc. lia.
  - destruct (backend_op_trace op (snd (JS_OOM_POSSIBLY_FAIL b w))) as (e & He & ->).
    rewrite length_backend_calls_snoc, He, Hbc. reflexivity.
Qed.

End InjectorSequences.

(** X1.  With the injector compiled in and the 32-bit counter at [c0],
    the [k]-th gated operation from there passes exactly when
    [(c0 + k) mod 2^32] is at most the threshold: the counter wraps, and
    the outcomes repeat with period [2^32]. *)
Theorem oom_injector_periodic (b : Build) (B : Backend)
    (prefix : list GatedOp) (op : GatedOp) (w0 : World) :
  oom_injection b = true ->
  0 <= OOM_counter w0 < 2 ^ 32 ->
  let w := snd (run_ops b prefix w0) in
  let c := (OOM_counter w0 + (Z.of_nat (length prefix) + 1)) mod 2 ^ 32 in
  (c <= OOM_maxAllocations w0 ->
     run_op b op w = backend_op op (set_counter c w)) /\
  (OOM_maxAllocations w0 < c ->
     fst (run_op b op w) = nullptr /\
     mem (snd (run_op b op w)) = mem w /\
     backend_calls (trace (snd (run_op b op w))) = backend_calls (trace w)).
Proof.
  intros He Hc0 w c.
  destruct (run_ops_counters b prefix w0 He Hc0) as [Hc Hm]. fold w in Hc, Hm.
  assert (Hcnt : uint32_t (OOM_counter w + 1) = c).
  { rewrite Hc, uint32_t_mod, Z.add_mod_idemp_l by lia. subst c. f_equal. lia. }
  rewrite run_op_gate, JS_OOM_POSSIBLY_FAIL_enabled by assumption.
  rewrite Hcnt, Hm. split; intros Hcmp.
  - rewrite gtb_false by assumption. reflexivity.
  - rewrite gtb_true by assumption. cbn [fst snd].
    split; [reflexivity|].
    destruct (JS_OOM_BREAKPOINT b); cbn; rewrite ?backend_calls_app, ?app_nil_r; auto.
Qed.

Lemma oom_injector_periodic_witness :
  0 <= OOM_counter (set_counter 4294967295 (start_world 1)) < 2 ^ 32 /\
  run_op (debug_build ILP32) (B := block_backend) (OpMalloc 16)
    (snd (run_ops (debug_build ILP32) (B := block_backend) [OpCalloc 8]
            (set_counter 4294967295 (start_world 1))))
  = backend_op (B := block_backend) (OpMalloc 16)
      (set_counter 1
         (snd (run_ops (debug_build ILP32) (B := block_backend) [OpCalloc 8]
                 (set_counter 4294967295 (start_world 1))))).
Proof.
  assert (Hc : 0 <= OOM_counter (set_counter 4294967295 (start_world 1)) < 2 ^ 32)
    by (cbn; lia).
  split; [exact Hc|].
  exact (proj1 (oom_injector_periodic (debug_build ILP32) block_backend
                  [OpCalloc 8] (OpMalloc 16)
                  (set_counter 4294967295 (start_world 1)) eq_refl Hc)
               (Z.le_refl 1)).
Defined.

(** X2.  With the injector compiled in, the counter at [c] and the
    threshold at [N], a sequence of [n] gated operations that does not
    wrap the counter makes [min n (N - c)] backend calls (none when
    [N <= c]): the operations that fail add no call. *)
Theorem oom_injector_backend_calls (b : Build) (B : Backend)
    (ops : list GatedOp) (w : World) :
  oom_injection b = true ->
  0 <= OOM_counter w ->
  OOM_counter w + Z.of_nat (length ops) < 2 ^ 32 ->
  Z.of_nat (length (backend_calls (trace (snd (run_ops b ops w))))) =
  Z.of_nat (length (backend_calls (trace w))) +
  Z.max 0 (Z.min (Z.of_nat (length ops)) (OOM_maxAllocations w - OOM_counter w)).
Proof.
  revert w. induction ops as [|op rest IH]; intros w He Hc Hn.
  - cbn [run_ops ret snd length]. change (Z.of_nat 0) with 0. lia.
  - rewrite run_ops_cons.
    assert (Hlen : Z.of_nat (length (op :: rest)) = 1 + Z.of_nat (length rest))
      by (cbn [length]; lia).
    rewrite Hlen in *.
    destruct (run_op_counters b op w He) as [Hc1 Hm1].
    rewrite uint32_t_mod, Z.mod_small in Hc1 by lia.
    rewrite IH by (assumption || lia).
    rewrite run_op_backend_count, Hc1, Hm1.
    destruct (JS_OOM_POSSIBLY_FAIL_outcome b w He) as [-> _].
    rewrite Z.mod_small by lia.
    destruct (Z.gtb_spec (OOM_counter w + 1) (OOM_maxAllocations w)); lia.
Qed.

Lemma oom_injector_backend_calls_witness :
  Z.of_nat (length (backend_calls (trace (snd
     (run_ops (debug_build LP64) (B := block_backend)
        [OpMalloc 1; OpCalloc 2; OpRealloc 4096 3; OpCallocNmemb 4 5; OpMalloc 6]
        (start_world 3)))))) = 0 + Z.max 0 (Z.min 5 (3 - 0)).
Proof.
  exact (oom_injector_backend_calls (debug_build LP64) block_backend
           [OpMalloc 1; OpCalloc 2; OpRealloc 4096 3; OpCallocNmemb 4 5; OpMalloc 6]
           (start_world 3) eq_refl ltac:(cbn; lia) ltac:(cbn; lia)).
Defined.

(** X3.  In a build with neither [DEBUG] nor [JS_OOM_BREAKPOINT] every
    gated operation is its backend call, and a sequence of them leaves
    both OOM globals as they were and makes one backend call per
    operation, whatever the globals hold. *)
Theorem facade_without_injection (b : Build) (B : Backend)
    (ops : list GatedOp) (op : GatedOp) (w : World) :
  oom_injection b = false ->
  run_op b op w = backend_op op w /\
  OOM_counter (snd (run_ops b ops w)) = OOM_counter w /\
  OOM_maxAllocations (snd (run_ops b ops w)) = OOM_maxAllocations w /\
  length (backend_calls (trace (snd (run_ops b ops w)))) =
    (length (backend_calls (trace w)) + length ops)%nat.
Proof.
  intros He.
  assert (Hop : forall o v, run_op b o v = backend_op o v).
  { intros o v. rewrite run_op_gate, JS_OOM_POSSIBLY_FAIL_disabled by assumption.
    reflexivity. }
  split; [apply Hop|].
  revert w. induction ops as [|o rest IH]; intros w.
  - cbn. repeat split; lia.
  - rewrite run_ops_cons, Hop.
    destruct (IH (snd (backend_op o w))) as (-> & -> & ->).
    destruct (backend_op_counters o w) as [-> ->].
    destruct (backend_op_trace o w) as (e & Hbe & ->).
    rewrite backend_calls_app, length_app. cbn [backend_calls filter].
    rewrite Hbe. cbn [length]. repeat split; lia.
Qed.

Lemma facade_without_injection_witness :
  oom_injection (release_build LP64) = false /\
  run_op (release_build LP64) (B := block_backend) (OpRealloc 4096 64)
    (set_counter 9 (start_world 0))
  = backend_op (B := block_backend) (OpRealloc 4096 64)
      (set_counter 9 (start_world 0)) /\
  OOM_counter (snd (run_ops (release_build LP64) (B := block_backend)
                      [OpMalloc 8; OpCalloc 8] (set_counter 9 (start_world 0)))) = 9.
Proof.
  split; [reflexivity|].
  destruct (facade_without_injection (release_build LP64) block_backend
              [OpMalloc 8; OpCalloc 8] (OpRealloc 4096 64)
              (set_counter 9 (start_world 0)) eq_refl) as (Hop & Hc & _).
  split; [exact Hop | exact Hc].
Defined.

(** X4.  A gated operation that the injector fails calls the breakpoint
    function once when [JS_OOM_BREAKPOINT] is defined and logs nothing
    otherwise; one that passes logs exactly its backend call and never the
    breakpoint. *)
Theorem failed_allocation_breakpoint (b : Build) (B : Backend)
    (op : GatedOp) (w : World) :
  (fst (JS_OOM_POSSIBLY_FAIL b w) = true ->
     trace (snd (run_op b op w)) =
       trace w ++ (if JS_OOM_BREAKPOINT b then [EvBreakpoint] else [])) /\
  (fst (JS_OOM_POSSIBLY_FAIL b w) = false ->
     exists e, is_backend_call e = true /\
               trace (snd (run_op b op w)) = trace w ++ [e]).
Proof.
  rewrite run_op_gate. split; intros Hg; rewrite Hg; cbn [snd].
  - now apply JS_OOM_POSSIBLY_FAIL_fail_trace.
  - destruct (backend_op_trace op (snd (JS_OOM_POSSIBLY_FAIL b w))) as (e & He & ->).
    exists e. rewrite JS_OOM_POSSIBLY_FAIL_pass_trace by assumption. auto.
Qed.

Lemma failed_allocation_breakpoint_witness :
  fst (JS_OOM_POSSIBLY_FAIL (breakpoint_build ILP32) (start_world 0)) = true /\
  trace (snd (run_op (breakpoint_build ILP32) (B := block_backend) (OpMalloc 16)
                (start_world 0)))
  = trace (start_world 0) ++ [EvBreakpoint].
Proof.
  split; [reflexivity|].
  exact (proj1 (failed_allocation_breakpoint (breakpoint_build ILP32) block_backend
                  (OpMalloc 16) (start_world 0)) eq_refl).
Defined.

(** ** Construction and destruction together *)

(** Addresses from the end on are not written by [memset]. *)
Lemma memset_bytes_above n : forall p c m x,
  p + Z.of_nat n <= x -> memset_bytes p c n m x = m x.
Proof.
  induction n as [|n IH]; intros p c m x Hx; cbn [memset_bytes]; [reflexivity|].
  rewrite IH by lia. unfold store_byte.
  destruct (Z.eqb_spec x p); [lia | reflexivity].
Qed.

(** X5.  When the injector fails the check, [js_new<T>] returns null with
    neither [malloc] nor the constructor called and memory as it was; the
    attempt still advances the counter. *)
Theorem js_new_injected (b : Build) (B : Backend) (t : Class)
    (parms : list Z) (w : World) :
  fst (JS_OOM_POSSIBLY_FAIL b w) = true ->
  fst (js_new b t parms w) = nullptr /\
  mem (snd (js_new b t parms w)) = mem w /\
  trace (snd (js_new b t parms w)) =
    trace w ++ (if JS_OOM_BREAKPOINT b then [EvBreakpoint] else []) /\
  OOM_counter (snd (js_new b t parms w)) = uint32_t (OOM_counter w + 1).
Proof.
  intros Hg. unfold js_new. rewrite JS_NEW_BODY_cases, js_malloc_gate, Hg.
  cbn [fst snd]. change (nullptr =? nullptr) with true. cbn [fst snd].
  destruct (JS_OOM_POSSIBLY_FAIL_frame b w) as (Hmem & _ & _).
  split; [reflexivity|]. split; [exact Hmem|].
  split; [now apply JS_OOM_POSSIBLY_FAIL_fail_trace|].
  destruct (oom_injection b) eqn:He.
  - destruct (JS_OOM_POSSIBLY_FAIL_outcome b w He) as [_ ->].
    now rewrite uint32_t_mod.
  - rewrite JS_OOM_POSSIBLY_FAIL_disabled in Hg by assumption. discriminate.
Qed.

Lemma js_new_injected_witness :
  fst (JS_OOM_POSSIBLY_FAIL (debug_build ILP32) (start_world 0)) = true /\
  fst (js_new (debug_build ILP32) (B := block_backend) (byte_class 8) [7]
         (start_world 0)) = nullptr /\
  trace (snd (js_new (debug_build ILP32) (B := block_backend) (byte_class 8) [7]
                (start_world 0))) = trace (start_world 0) ++ [].
Proof.
  split; [reflexivity|].
  destruct (js_new_injected (debug_build ILP32) block_backend (byte_class 8) [7]
              (start_world 0) eq_refl) as (Hnull & _ & Htrace & _).
  split; [exact Hnull | exact Htrace].
Defined.

(** X6.  [js_delete<T>] applied to the result of [js_new<T>]: when
    [js_new] returned null nothing more happens; otherwise the whole
    round trip logs [malloc(sizeof(T))], the constructor, the destructor
    and [free], each once and all on the block [malloc] returned. *)
Theorem js_new_then_js_delete (b : Build) (B : Backend) (t : Class)
    (parms : list Z) (w : World) :
  let p := fst (js_new b t parms w) in
  let w1 := snd (js_new b t parms w) in
  (p = nullptr -> js_delete t p w1 = (tt, w1)) /\
  (p <> nullptr ->
     trace (snd (js_delete t p w1)) =
       trace w ++ [EvMalloc (sizeof t); EvConstruct p parms;
                   EvDestruct p; EvFree p]).
Proof.
  intros p w1. split.
  - intros ->. reflexivity.
  - intros Hp. unfold js_delete.
    destruct (Z.eqb_spec p nullptr) as [He|_]; [contradiction|].
    assert (Hw1 : trace w1 = trace w ++ [EvMalloc (sizeof t); EvConstruct p parms]).
    { subst p w1. revert Hp. unfold js_new.
      rewrite JS_NEW_BODY_cases, js_malloc_gate.
      destruct (fst (JS_OOM_POSSIBLY_FAIL b w)) eqn:Hg; cbn [fst snd].
      - change (nullptr =? nullptr) with true. cbn [fst]. intros Hn. now elim Hn.
      - pose proof (JS_OOM_POSSIBLY_FAIL_pass_trace b w Hg) as Htr.
        unfold call_malloc.
        destruct (malloc (sizeof t) (mem (snd (JS_OOM_POSSIBLY_FAIL b w))))
          as [q m] eqn:Hq.
        cbn [fst snd]. destruct (Z.eqb_spec q nullptr) as [->|Hne]; cbn [fst snd].
        + intros Hn. now elim Hn.
        + intros _. cbn. rewrite Htr, <- app_assoc. reflexivity. }
    cbn. rewrite Hw1, <- !app_assoc. reflexivity.
Qed.

Lemma js_new_then_js_delete_witness :
  fst (js_new (debug_build LP64) (B := block_backend) (byte_class 8) [7; 9]
         (start_world 1)) <> nullptr /\
  trace (snd (js_delete (B := block_backend) (byte_class 8)
                (fst (js_new (debug_build LP64) (B := block_backend)
                        (byte_class 8) [7; 9] (start_world 1)))
                (snd (js_new (debug_build LP64) (B := block_backend)
                        (byte_class 8) [7; 9] (start_world 1)))))
  = trace (start_world 1) ++
    [EvMalloc (sizeof (byte_class 8));
     EvConstruct (fst (js_new (debug_build LP64) (B := block_backend)
                         (byte_class 8) [7; 9] (start_world 1))) [7; 9];
     EvDestruct (fst (js_new (debug_build LP64) (B := block_backend)
                        (byte_class 8) [7; 9] (start_world 1)));
     EvFree (fst (js_new (debug_build LP64) (B := block_backend)
                    (byte_class 8) [7; 9] (start_world 1)))].
Proof.
  assert (Hp : fst (js_new (debug_build LP64) (B := block_backend) (byte_class 8)
                      [7; 9] (start_world 1)) <> nullptr) by discriminate.
  split; [exact Hp|].
  exact (proj2 (js_new_then_js_delete (debug_build LP64) block_backend (byte_class 8)
                  [7; 9] (start_world 1)) Hp).
Defined.

(** X7.  [js_delete_poison<T>(nullptr)] does nothing, and on a non-null
    pointer the poisoning writes no byte outside the [sizeof(T)] bytes of
    the object: between the destructor and the free every other address
    keeps its byte. *)
Theorem js_delete_poison_bounds (B : Backend) (t : Class) (p : Z) (w : World) :
  js_delete_poison t nullptr w = (tt, w) /\
  js_delete_poison t p w =
    (if p =? nullptr then (tt, w)
     else js_free p (snd (call_memset p 0x3B (sizeof t)
                            (snd (call_destructor t p w))))) /\
  forall x, x < p \/ p + sizeof t <= x ->
    mem (snd (call_memset p 0x3B (sizeof t) (snd (call_destructor t p w)))) x
    = mem (snd (call_destructor t p w)) x.
Proof.
  split; [reflexivity|]. split.
  - unfold js_delete_poison. destruct (p =? nullptr); reflexivity.
  - intros x Hx. cbn [call_memset snd log set_mem mem].
    destruct Hx as [Hlo|Hhi].
    + apply memset_bytes_below. exact Hlo.
    + destruct (Z.le_gt_cases 0 (sizeof t)) as [Hs|Hs].
      * apply memset_bytes_above. rewrite Z2Nat.id by assumption. exact Hhi.
      * assert (Z.to_nat (sizeof t) = 0%nat) as -> by lia. reflexivity.
Qed.

Lemma js_delete_poison_bounds_witness :
  mem (snd (call_memset 4096 0x3B (sizeof (byte_class 8))
              (snd (call_destructor (byte_class 8) 4096 (start_world 0))))) 4104
  = mem (snd (call_destructor (byte_class 8) 4096 (start_world 0))) 4104.
Proof.
  exact (proj2 (proj2 (js_delete_poison_bounds block_backend (byte_class 8) 4096
                         (start_world 0))) 4104 (or_intror (Z.le_refl 4104))).
Defined.

(** ** The overflow mask on every element size *)

Lemma FloorLog2_spec p :
  0 <= FloorLog2 p /\ 2 ^ FloorLog2 p <= Zpos p < 2 ^ (FloorLog2 p + 1).
Proof.
  induction p as [j IH|j IH|]; cbn [FloorLog2].
  - destruct IH as (H0 & Hlo & Hhi). split; [lia|].
    rewrite (Pos2Z.inj_xI j).
    replace (1 + FloorLog2 j + 1) with (Z.succ (FloorLog2 j + 1)) by lia.
    replace (1 + FloorLog2 j) with (Z.succ (FloorLog2 j)) by lia.
    rewrite !Z.pow_succ_r by lia. lia.
  - destruct IH as (H0 & Hlo & Hhi). split; [lia|].
    rewrite (Pos2Z.inj_xO j).
    replace (1 + FloorLog2 j + 1) with (Z.succ (FloorLog2 j + 1)) by lia.
    replace (1 + FloorLog2 j) with (Z.succ (FloorLog2 j)) by lia.
    rewrite !Z.pow_succ_r by lia. lia.
  - cbn. lia.
Qed.

(** Up to half the range of [size_t], [CeilingLog2<N>] is the least
    exponent whose power of two reaches [N]. *)
Lemma CeilingLog2_spec a n :
  1 <= n <= 2 ^ (BitSize_size_t a - 1) ->
  0 <= CeilingLog2 a n /\ n <= 2 ^ CeilingLog2 a n /\
  2 ^ CeilingLog2 a n <= 2 * n - 1.
Proof.
  intros Hn. unfold CeilingLog2.
  assert (Hhalf : 2 ^ BitSize_size_t a = 2 * 2 ^ (BitSize_size_t a - 1))
    by (destruct a; reflexivity).
  rewrite size_t_small by lia.
  destruct (2 * n - 1) as [|q|q] eqn:Hq; try lia.
  destruct (FloorLog2_spec q) as (H0 & Hlo & Hhi).
  replace (FloorLog2 q + 1) with (Z.succ (FloorLog2 q)) in Hhi by lia.
  rewrite Z.pow_succ_r in Hhi by lia. lia.
Qed.

(** For an element size from 2 to half the range of [size_t] the mask has
    its top [CeilingLog2<N>] bits set. *)
Lemma MulOverflowMask_top_bits a n :
  2 <= n <= 2 ^ (BitSize_size_t a - 1) ->
  1 <= CeilingLog2 a n <= BitSize_size_t a /\
  MulOverflowMask a n =
    Z.shiftl (Z.ones (CeilingLog2 a n)) (BitSize_size_t a - CeilingLog2 a n).
Proof.
  intros Hn.
  destruct (CeilingLog2_spec a n ltac:(lia)) as (H0 & Hup & Hlo).
  assert (Hhalf : 2 ^ BitSize_size_t a = 2 * 2 ^ (BitSize_size_t a - 1))
    by (destruct a; reflexivity).
  set (L := CeilingLog2 a n) in *. set (w := BitSize_size_t a) in *.
  assert (Hw : 0 < w) by (subst w; destruct a; cbn; lia).
  assert (HL1 : 1 <= L).
  { destruct (Z.eq_dec L 0) as [E|E]; [rewrite E in Hup; cbn in Hup; lia | lia]. }
  assert (HLw : L <= w).
  { assert (Hlt : 2 ^ L < 2 ^ w) by lia.
    apply Z.pow_lt_mono_r_iff in Hlt; lia. }
  split; [lia|].
  assert (Hsplit : 2 ^ w = 2 ^ L * 2 ^ (w - L)).
  { rewrite <- Z.pow_add_r by lia. f_equal. lia. }
  assert (Hp : 0 < 2 ^ (w - L)) by (apply Z.pow_pos_nonneg; lia).
  assert (HpL : 2 <= 2 ^ L).
  { change 2 with (2 ^ 1) at 1. apply Z.pow_le_mono_r; lia. }
  unfold MulOverflowMask, NBitMask. fold L w.
  destruct (Z.eqb_spec n 1) as [E|_]; [lia|].
  destruct (Z.eqb_spec (w - L) w) as [E|_]; [lia|].
  rewrite Z.shiftl_1_l.
  rewrite (size_t_small a (2 ^ (w - L) - 1)) by (fold w; nia).
  rewrite size_t_mod. fold w.
  rewrite Z.shiftl_mul_pow2, Z.ones_equiv by lia.
  unfold Z.lnot.
  replace (Z.pred (- (2 ^ (w - L) - 1)))
    with (Z.pred (2 ^ L) * 2 ^ (w - L) + (-1) * 2 ^ w) by lia.
  rewrite Z.mod_add by lia. apply Z.mod_small. nia.
Qed.

(** The mask test on an element size up to half the range of [size_t]:
    an accepted count has a byte size that fits [size_t]. *)
Lemma MulOverflowMask_sound a n count :
  1 <= n <= 2 ^ (BitSize_size_t a - 1) ->
  0 <= count <= SIZE_MAX a ->
  (Z.land count (MulOverflowMask a n) =? 0) = true ->
  count * n <= SIZE_MAX a.
Proof.
  intros Hn Hc Ht. destruct (Z.eq_dec n 1) as [->|Hne]; [lia|].
  destruct (MulOverflowMask_top_bits a n ltac:(lia)) as (HL & Hmask).
  destruct (CeilingLog2_spec a n ltac:(lia)) as (_ & Hup & _).
  rewrite Hmask in Ht. unfold SIZE_MAX in *.
  rewrite land_top_bits in Ht by
    (try lia; replace (BitSize_size_t a - CeilingLog2 a n + CeilingLog2 a n)
       with (BitSize_size_t a) by lia; lia).
  replace (BitSize_size_t a - CeilingLog2 a n + CeilingLog2 a n)
    with (BitSize_size_t a) in Ht by lia.
  apply Z.ltb_lt in Ht. nia.
Qed.

(** X8.  For every element size up to half the range of [size_t] (not
    only powers of two) and every count, [js_pod_malloc] and
    [js_pod_calloc] either refuse (null, state untouched) or call
    [js_malloc] and [js_calloc] with [count * sizeof(T)], a byte size that
    fits [size_t]: a wrapped product is never requested. *)
Theorem js_pod_never_truncates (b : Build) (B : Backend) (sz count : Z) (w : World) :
  1 <= sz <= 2 ^ (BitSize_size_t (arch b) - 1) ->
  0 <= count <= SIZE_MAX (arch b) ->
  (js_pod_malloc b sz count w = (nullptr, w) /\
   js_pod_calloc b sz count w = (nullptr, w)) \/
  (count * sz <= SIZE_MAX (arch b) /\
   js_pod_malloc b sz count w = js_malloc b (count * sz) w /\
   js_pod_calloc b sz count w = js_calloc b (count * sz) w).
Proof.
  intros Hsz Hc.
  destruct (Z.land count (MulOverflowMask (arch b) sz) =? 0) eqn:Ht.
  - right. pose proof (MulOverflowMask_sound (arch b) sz count Hsz Hc Ht) as Hfit.
    split; [exact Hfit|].
    destruct (js_pod_accepted b sz count w Ht) as [-> ->].
    rewrite size_t_small; [auto|]. unfold SIZE_MAX in *. nia.
  - left. now apply js_pod_refused.
Qed.

Lemma js_pod_never_truncates_witness :
  1 <= 12 <= 2 ^ (BitSize_size_t ILP32 - 1) /\
  0 <= 1000 <= SIZE_MAX ILP32 /\
  ((js_pod_malloc (release_build ILP32) (B := block_backend) 12 1000 (start_world 0)
    = (nullptr, start_world 0) /\
    js_pod_calloc (release_build ILP32) (B := block_backend) 12 1000 (start_world 0)
    = (nullptr, start_world 0)) \/
   (1000 * 12 <= SIZE_MAX ILP32 /\
    js_pod_malloc (release_build ILP32) (B := block_backend) 12 1000 (start_world 0)
    = js_malloc (release_build ILP32) (B := block_backend) (1000 * 12) (start_world 0) /\
    js_pod_calloc (release_build ILP32) (B := block_backend) 12 1000 (start_world 0)
    = js_calloc (release_build ILP32) (B := block_backend) (1000 * 12) (start_world 0))).
Proof.
  assert (Hsz : 1 <= 12 <= 2 ^ (BitSize_size_t ILP32 - 1)) by (simpl; lia).
  assert (Hc : 0 <= 1000 <= SIZE_MAX ILP32) by (unfold SIZE_MAX; simpl; lia).
  split; [exact Hsz|]. split; [exact Hc|].
  exact (js_pod_never_truncates (release_build ILP32) block_backend 12 1000
           (start_world 0) Hsz Hc).
Defined.

(** X9.  For an element size up to half the range of [size_t] that is not
    a power of two the mask test is stricter than the overflow test: the
    count [2^(bits - CeilingLog2 N)] has a byte size that fits [size_t]
    and is refused all the same. *)
Theorem js_pod_refuses_fitting_count (b : Build) (B : Backend) (sz : Z) (w : World) :
  2 <= sz <= 2 ^ (BitSize_size_t (arch b) - 1) ->
  (forall k, 0 <= k -> sz <> 2 ^ k) ->
  0 <= 2 ^ (BitSize_size_t (arch b) - CeilingLog2 (arch b) sz) <= SIZE_MAX (arch b) /\
  2 ^ (BitSize_size_t (arch b) - CeilingLog2 (arch b) sz) * sz <= SIZE_MAX (arch b) /\
  js_pod_malloc b sz (2 ^ (BitSize_size_t (arch b) - CeilingLog2 (arch b) sz)) w
  = (nullptr, w) /\
  js_pod_calloc b sz (2 ^ (BitSize_size_t (arch b) - CeilingLog2 (arch b) sz)) w
  = (nullptr, w).
Proof.
  intros Hsz Hnp.
  destruct (MulOverflowMask_top_bits (arch b) sz Hsz) as (HL & Hmask).
  destruct (CeilingLog2_spec (arch b) sz ltac:(lia)) as (_ & Hup & _).
  pose proof (Hnp (CeilingLog2 (arch b) sz) ltac:(lia)) as Hne.
  unfold SIZE_MAX in *.
  set (L := CeilingLog2 (arch b) sz) in *. set (wd := BitSize_size_t (arch b)) in *.
  assert (Hsplit : 2 ^ wd = 2 ^ (wd - L) * 2 ^ L).
  { rewrite <- Z.pow_add_r by lia. f_equal. lia. }
  assert (Hp : 0 < 2 ^ (wd - L)) by (apply Z.pow_pos_nonneg; lia).
  assert (HpL : 2 <= 2 ^ L).
  { change 2 with (2 ^ 1) at 1. apply Z.pow_le_mono_r; lia. }
  assert (Hcount : 0 <= 2 ^ (wd - L) <= 2 ^ wd - 1) by nia.
  split; [exact Hcount|]. split; [nia|].
  apply js_pod_refused. fold wd. rewrite Hmask.
  rewrite land_top_bits by
    (try lia; replace (wd - L + L) with wd by lia; lia).
  replace (wd - L + L) with wd by lia.
  apply Z.ltb_ge. lia.
Qed.

Lemma js_pod_refuses_fitting_count_witness :
  2 <= 12 <= 2 ^ (BitSize_size_t ILP32 - 1) /\
  268435456 * 12 <= SIZE_MAX ILP32 /\
  js_pod_malloc (debug_build ILP32) (B := block_backend) 12 268435456 (start_world 9)
  = (nullptr, start_world 9).
Proof.
  assert (Hsz : 2 <= 12 <= 2 ^ (BitSize_size_t ILP32 - 1)) by (simpl; lia).
  assert (Hnp : forall k, 0 <= k -> 12 <> 2 ^ k).
  { intros k Hk He. destruct (Z.le_gt_cases k 3) as [Hle|Hgt].
    - assert (2 ^ k <= 2 ^ 3) by (apply Z.pow_le_mono_r; lia). simpl in *. lia.
    - assert (2 ^ 4 <= 2 ^ k) by (apply Z.pow_le_mono_r; lia). simpl in *. lia. }
  split; [exact Hsz|].
  destruct (js_pod_refuses_fitting_count (debug_build ILP32) block_backend 12
              (start_world 9) Hsz Hnp) as (_ & Hfit & Hmal & _).
  split; [exact Hfit | exact Hmal].
Defined.

(** ** The scrambler as a permutation *)

Lemma ScrambleHashCode_mod h : ScrambleHashCode h = (h * goldenRatio) mod 2 ^ 32.
Proof.
  unfold ScrambleHashCode. rewrite !uint32_t_mod. apply Z.mul_mod_idemp_l. lia.
Qed.

(** Multiplying by [0x144CBC89] undoes the multiplication by
    [goldenRatio], modulo 2^32. *)
Lemma ScrambleHashCode_undo h :
  (ScrambleHashCode h * 0x144CBC89) mod 2 ^ 32 = h mod 2 ^ 32.
Proof.
  rewrite ScrambleHashCode_mod, Z.mul_mod_idemp_l, <- Z.mul_assoc by lia.
  rewrite Z.mul_mod by lia.
  change ((goldenRatio * 0x144CBC89) mod 2 ^ 32) with 1.
  rewrite Z.mul_1_r. apply Z.mod_mod. lia.
Qed.

(** X10.  [ScrambleHashCode] permutes the 32-bit hash codes: two different
    codes never scramble to the same value, and every 32-bit value is the
    scrambled form of a code (the one obtained by multiplying it by
    [0x144CBC89] modulo 2^32). *)
Theorem ScrambleHashCode_permutation :
  (forall h1 h2, 0 <= h1 < 2 ^ 32 -> 0 <= h2 < 2 ^ 32 ->
     ScrambleHashCode h1 = ScrambleHashCode h2 -> h1 = h2) /\
  (forall y, 0 <= y < 2 ^ 32 ->
     ScrambleHashCode (uint32_t (y * 0x144CBC89)) = y).
Proof.
  split.
  - intros h1 h2 H1 H2 He.
    pose proof (ScrambleHashCode_undo h1) as U1.
    pose proof (ScrambleHashCode_undo h2) as U2.
    rewrite He, U2 in U1. rewrite !Z.mod_small in U1 by assumption. congruence.
  - intros y Hy.
    rewrite ScrambleHashCode_mod, uint32_t_mod, Z.mul_mod_idemp_l by lia.
    rewrite <- Z.mul_assoc, Z.mul_mod by lia.
    change ((0x144CBC89 * goldenRatio) mod 2 ^ 32) with 1.
    rewrite Z.mul_1_r, Z.mod_mod by lia. now apply Z.mod_small.
Qed.

Lemma ScrambleHashCode_permutation_witness :
  ScrambleHashCode (uint32_t (1 * 0x144CBC89)) = 1.
Proof.
  exact (proj2 ScrambleHashCode_permutation 1 ltac:(lia)).
Defined.

(** X11.  Consecutive hash codes scramble to values [goldenRatio] apart
    modulo 2^32, and so never agree after a right shift by 30 bits or
    fewer: whatever the shift, in a table of at least four buckets indexed
    by the top bits, [h] and [h + 1] fall in different buckets. *)
Theorem ScrambleHashCode_neighbours_apart (h s : Z) :
  0 <= s <= 30 ->
  ScrambleHashCode (h + 1) = (ScrambleHashCode h + goldenRatio) mod 2 ^ 32 /\
  Z.shiftr (ScrambleHashCode (h + 1)) s <> Z.shiftr (ScrambleHashCode h) s.
Proof.
  intros Hs.
  assert (Hstep : ScrambleHashCode (h + 1)
                  = (ScrambleHashCode h + goldenRatio) mod 2 ^ 32).
  { rewrite !ScrambleHashCode_mod, Z.add_mod_idemp_l by lia. f_equal. lia. }
  split; [exact Hstep|].
  rewrite Hstep, !Z.shiftr_div_pow2 by lia.
  assert (Hx : 0 <= ScrambleHashCode h < 2 ^ 32).
  { rewrite ScrambleHashCode_mod. apply Z.mod_pos_bound. lia. }
  set (x := ScrambleHashCode h) in *.
  assert (HP : 0 < 2 ^ s <= 2 ^ 30).
  { split; [apply Z.pow_pos_nonneg; lia | apply Z.pow_le_mono_r; lia]. }
  set (P := 2 ^ s) in *.
  pose proof (Z.div_mod (x + goldenRatio) (2 ^ 32) ltac:(lia)) as Hd.
  pose proof (Z.mod_pos_bound (x + goldenRatio) (2 ^ 32) ltac:(lia)) as Hb.
  set (y := (x + goldenRatio) mod 2 ^ 32) in *.
  set (q := (x + goldenRatio) / 2 ^ 32) in *.
  unfold goldenRatio in Hd.
  change (2 ^ 32) with 4294967296 in *. change (2 ^ 30) with 1073741824 in HP.
  intros He.
  pose proof (Z.div_mod x P ltac:(lia)) as Hdx.
  pose proof (Z.div_mod y P ltac:(lia)) as Hdy.
  pose proof (Z.mod_pos_bound x P ltac:(lia)) as Hbx.
  pose proof (Z.mod_pos_bound y P ltac:(lia)) as Hby.
  rewrite He in Hdy.
  assert (Hq : q = 0 \/ q = 1) by lia.
  destruct Hq as [Hq|Hq]; rewrite Hq in Hd; lia.
Qed.

Lemma ScrambleHashCode_neighbours_apart_witness :
  0 <= 24 <= 30 /\
  Z.shiftr (ScrambleHashCode (5 + 1)) 24 <> Z.shiftr (ScrambleHashCode 5) 24.
Proof.
  assert (Hs : 0 <= 24 <= 30) by lia.
  split; [exact Hs|].
  exact (proj2 (ScrambleHashCode_neighbours_apart 5 24 Hs)).
Defined.

(** ** Poisoning and its test together *)

(** X12.  With root analysis compiled in, a pointer word read back from
    the address passed to [PoisonPtr] is reported by [IsPoisonedPtr], on
    both pointer widths and for any pattern; poisoning the same word again
    changes no byte. *)
Theorem PoisonPtr_then_IsPoisonedPtr (b : Build) (pat addr : Z) (w : World) :
  root_analysis b = true ->
  IsPoisonedPtr b pat
    (load_pointer (arch b) addr (mem (snd (PoisonPtr b pat addr w)))) = true /\
  forall x,
    mem (snd (PoisonPtr b pat addr (snd (PoisonPtr b pat addr w)))) x
    = mem (snd (PoisonPtr b pat addr w)) x.
Proof.
  intros Hr. split.
  - rewrite IsPoisonedPtr_enabled by assumption.
    unfold load_pointer.
    rewrite byte_of_load_bytes by (destruct (arch b); cbn; lia).
    unfold PoisonPtr. rewrite Hr. cbn [snd set_mem mem]. unfold store_byte.
    rewrite Z.eqb_refl, uint8_t_idemp. apply Z.eqb_refl.
  - intros x. unfold PoisonPtr. rewrite Hr. cbn [snd set_mem mem].
    unfold store_byte. destruct (x =? addr + 3); reflexivity.
Qed.

Lemma PoisonPtr_then_IsPoisonedPtr_witness :
  root_analysis (analysis_build LP64) = true /\
  IsPoisonedPtr (analysis_build LP64) 0xDA
    (load_pointer (arch (analysis_build LP64)) 4096
       (mem (snd (PoisonPtr (analysis_build LP64) 0xDA 4096 (start_world 0)))))
  = true.
Proof.
  split; [reflexivity|].
  exact (proj1 (PoisonPtr_then_IsPoisonedPtr (analysis_build LP64) 0xDA 4096
                  (start_world 0) eq_refl)).
Defined.

(** ** One element as an array *)

(** X13.  An array of one element is allocated like a single element,
    [js_pod_malloc<T>(1)] as [js_pod_malloc<T>()] and likewise for
    [js_pod_calloc], for every [sizeof(T)] up to half the range of
    [size_t]. *)
Theorem js_pod_single_element (b : Build) (B : Backend) (sz : Z) (w : World) :
  1 <= sz <= 2 ^ (BitSize_size_t (arch b) - 1) ->
  js_pod_malloc b sz 1 w = js_pod_malloc_one b sz w /\
  js_pod_calloc b sz 1 w = js_pod_calloc_one b sz w.
Proof.
  intros Hsz.
  assert (Hw : 1 <= BitSize_size_t (arch b)) by (destruct (arch b); cbn; lia).
  assert (Hhalf : 2 ^ BitSize_size_t (arch b) = 2 * 2 ^ (BitSize_size_t (arch b) - 1)).
  { rewrite <- Z.pow_succ_r by lia. f_equal. lia. }
  assert (Hone : size_t (arch b) (1 * sz) = sz).
  { rewrite Z.mul_1_l. apply size_t_small. lia. }
  destruct (Z.eq_dec sz 1) as [->|Hne].
  { destruct (js_pod_accepted b 1 1 w) as [-> ->]; [reflexivity|].
    rewrite Hone. split; reflexivity. }
  destruct (MulOverflowMask_top_bits (arch b) sz ltac:(lia)) as (HL & Hmask).
  destruct (CeilingLog2_spec (arch b) sz ltac:(lia)) as (_ & Hup & Hlo).
  set (L := CeilingLog2 (arch b) sz) in *. set (wd := BitSize_size_t (arch b)) in *.
  assert (Hpw : 1 < 2 ^ wd) by (apply Z.pow_gt_1; lia).
  destruct (js_pod_accepted b sz 1 w) as [-> ->].
  - fold wd. rewrite Hmask.
    rewrite land_top_bits;
      [ replace (wd - L + L) with wd by lia; apply Z.ltb_lt; lia
      | lia | lia
      | replace (wd - L + L) with wd by lia; lia ].
  - rewrite Hone. split; reflexivity.
Qed.

Lemma js_pod_single_element_witness :
  1 <= 24 <= 2 ^ (BitSize_size_t LP64 - 1) /\
  js_pod_malloc (debug_build LP64) (B := block_backend) 24 1 (start_world 2)
  = js_pod_malloc_one (debug_build LP64) (B := block_backend) 24 (start_world 2).
Proof.
  assert (Hsz : 1 <= 24 <= 2 ^ (BitSize_size_t LP64 - 1)) by (simpl; lia).
  split; [exact Hsz|].
  exact (proj1 (js_pod_single_element (debug_build LP64) block_backend 24
                  (start_world 2) Hsz)).
Defined.
